(** * Server side of universe-i18n: connection locales, locale cache,
      remote loader and delivery endpoint ([source/server.ts]).

    The module-level objects [_localesPerConnections] and [cache] are plain
    JavaScript objects used as string-keyed maps; they are embedded as finite
    maps of their own properties and threaded explicitly through every
    operation that reads or writes them.  A read of [cache[locale]] that
    finds no own property falls through to what every plain object inherits
    from [Object.prototype]; the keys of [_localesPerConnections] are the
    ids the transport assigns to connections, none of which is such a name,
    so its reads are reads of own properties.  Collaborators that live outside
    [server.ts] (locale normalisation, the three formatters, URL resolution,
    the clock) are variables of the sections below. *)

From Stdlib Require Import ZArith String Ascii List Bool Lia.
From stdpp Require Import base option list strings pretty gmap fin_maps.

Local Open Scope string_scope.

(** ** JavaScript values that reach the module *)

(** An EJSON value as delivered to a method by the RPC layer. *)
Unset Elimination Schemes.
Inductive EJSON :=
| EUndefined
| ENull
| EBool (b : bool)
| ENumber (n : Z)
| EString (s : string)
| EArray (items : list EJSON)
| EObject (fields : list (string * EJSON)).
Set Elimination Schemes.

(** The [typeof] operator on those values. *)
Definition typeof (v : EJSON) : string :=
  match v with
  | EUndefined => "undefined"
  | ENull => "object"
  | EBool _ => "boolean"
  | ENumber _ => "number"
  | EString _ => "string"
  | EArray _ => "object"
  | EObject _ => "object"
  end.

(** The names of the members every plain object inherits from
    [Object.prototype]: reading one of them off an object that has no own
    property of that name yields the inherited member, a function (or, for
    [__proto__], the prototype object itself): truthy, and without any
    [updatedAt]. *)
Definition objectPrototypeNames : list string :=
  ["constructor"; "__defineGetter__"; "__defineSetter__"; "hasOwnProperty";
   "__lookupGetter__"; "__lookupSetter__"; "isPrototypeOf";
   "propertyIsEnumerable"; "toString"; "valueOf"; "__proto__";
   "toLocaleString"].

Definition inherited (name : string) : bool :=
  existsb (String.eqb name) objectPrototypeNames.

(** A property key: [obj[undefined]] reads the property named "undefined",
    and a template literal prints [undefined] the same way. *)
Definition propertyKey (k : option string) : string :=
  match k with
  | Some s => s
  | None => "undefined"
  end.

(** Truthiness of a [string | undefined]. *)
Definition truthy (s : option string) : bool :=
  match s with
  | Some s => negb (String.eqb s "")
  | None => false
  end.

(** Outcome of a call that may throw [new Error(msg)]. *)
Inductive Outcome (A : Type) :=
| Return (a : A)
| Throw (message : string).
Arguments Return {A} a.
Arguments Throw {A} message.

(** ** Ambient context and the connection identity resolver *)

Module Connection.
Record t := Build { id : string }.
End Connection.

Module Invocation.
(** A method invocation; [connection] is [null] for server-initiated calls. *)
Record t := Build { connection : option Connection.t }.
End Invocation.

(** Result of reading an ambient variable, which may throw. *)
Inductive Read (A : Type) :=
| Throws
| Yields (a : A).
Arguments Throws {A}.
Arguments Yields {A} a.

(** What the two ambient variables hold at the time of a call:
    [DDP._CurrentInvocation.get()] and [_publishConnectionId.get()]. *)
Record Ambient := {
  currentInvocation : Read (option Invocation.t);
  publishConnectionId : option string;
}.

(** [a ?? b] on [string | undefined]. *)
Definition nullish (a b : option string) : option string :=
  match a with
  | Some x => Some x
  | None => b
  end.

(** [i18n._getConnectionId], lines 38-49. *)
Definition _getConnectionId (amb : Ambient) (connection : option Connection.t)
  : option string :=
  let connectionId := Connection.id <$> connection in
  match currentInvocation amb with
  | Yields invocation =>
      nullish (Connection.id <$> (invocation ≫= Invocation.connection))
              (publishConnectionId amb)
  | Throws => connectionId
  end.

(** ** Connection locale registry *)

(** [_localesPerConnections]: an own property may hold a string or, after
    a write of [undefined], the value [undefined]. *)
Abbreviation Registry := (gmap string (option string)).

(** [_localesPerConnections[key]] as a [string | undefined]. *)
Definition registryGet (reg : Registry) (key : option string) : option string :=
  mjoin (reg !! propertyKey key).

(** [i18n._getConnectionLocale], lines 52-53. *)
Definition _getConnectionLocale (amb : Ambient) (reg : Registry)
    (connection : option Connection.t) : option string :=
  registryGet reg (_getConnectionId amb connection).

(** [Meteor.onConnection] callback body, line 230. *)
Definition onConnection (reg : Registry) (connection : Connection.t) : Registry :=
  <[Connection.id connection := Some ""]> reg.

(** The [connection.onClose] callback registered at lines 231-233. *)
Definition onClose (reg : Registry) (connection : Connection.t) : Registry :=
  delete (Connection.id connection) reg.

Section Registry.
(** [i18n.normalize], from [common.ts]. *)
Variable normalize : string -> option string.

(** [i18n.setLocaleOnConnection], lines 129-139.  The second parameter
    defaults to [i18n._getConnectionId()] when it is [undefined]. *)
Definition setLocaleOnConnection (amb : Ambient) (reg : Registry)
    (locale : string) (connectionId : option string)
  : Registry * Outcome unit :=
  let connectionId :=
    match connectionId with
    | Some c => Some c
    | None => _getConnectionId amb None
    end in
  match registryGet reg connectionId with
  | Some _ =>
      (<[propertyKey connectionId := normalize locale]> reg, Return tt)
  | None =>
      (reg, Throw ("There is no connection under id: "
                     ++ propertyKey connectionId))
  end.

(** The method [universe.i18n.setServerLocaleForConnection], lines 210-226.
    [sameLocaleOnServerConnection] is the option of that name and
    [this_connection] is [this.connection]. *)
Definition setServerLocaleForConnection (sameLocaleOnServerConnection : bool)
    (amb : Ambient) (reg : Registry) (this_connection : option Connection.t)
    (locale : EJSON) : Registry * Outcome unit :=
  if negb (String.eqb (typeof locale) "string")
     || negb sameLocaleOnServerConnection
  then (reg, Return tt)
  else
    let connectionId := _getConnectionId amb this_connection in
    if negb (truthy connectionId) then (reg, Return tt)
    else
      match locale with
      | EString l => setLocaleOnConnection amb reg l connectionId
      | _ => (reg, Return tt) (* excluded by the [typeof] test *)
      end.
End Registry.

(** ** Locale cache *)

(** A query-string value as [url.parse(_, true)] yields it: a string, or an
    array of strings when the parameter is repeated. *)
Inductive QueryValue :=
| QString (s : string)
| QArray (items : list string).

(** An argument handed to a formatter. *)
Inductive Arg :=
| AUndefined
| AFalse
| AQuery (q : QueryValue).

(** Signature shared by [getJS], [getJSON] and [getYML]. *)
Definition Formatter : Type := string -> Arg -> Arg -> string.

Module GetCacheEntry.
Record t := Build {
  updatedAt : string;
  getYML : Formatter;
  getJSON : Formatter;
  getJS : Formatter;
}.
End GetCacheEntry.

(** The module-level [cache] object. *)
Abbreviation Cache := (gmap string GetCacheEntry.t).

(** What [i18n.getCache] returns: the whole mapping, one entry, or the
    member of [Object.prototype] the mapping inherits under that name. *)
Inductive GetCacheResult :=
| WholeCache (cache : Cache)
| Entry (e : GetCacheEntry.t)
| InheritedMember (name : string).

Section Cache.
(** The formatters imported from [./code-generators]. *)
Variables getJS getJSON getYML : Formatter.

(** [i18n.getCache], lines 56-71.  [now] is the value of
    [new Date().toUTCString()] at the time of the call. *)
Definition getCache (now : string) (cache : Cache) (locale : option string)
  : Cache * GetCacheResult :=
  if negb (truthy locale) then (cache, WholeCache cache)
  else
    let key := propertyKey locale in
    match cache !! key with
    | Some e => (cache, Entry e)
    | None =>
        if inherited key
        then (cache, InheritedMember key)
        else
          let e := GetCacheEntry.Build now getYML getJSON getJS in
          (<[key := e]> cache, Entry e)
    end.

(** [delete cache[normalizedLocale]], line 108: the invalidation step of
    the remote loader. *)
Definition invalidate (cache : Cache) (normalizedLocale : string) : Cache :=
  delete normalizedLocale cache.
End Cache.


(** ** Delivery endpoint *)

Module Query.
(** The five parameters the handler destructures from the parsed query. *)
Record t := Build {
  attachment : option QueryValue;
  diff : option QueryValue;
  namespace : option QueryValue;
  preload : option QueryValue;
  type : option QueryValue;
}.
End Query.

(** The result of [parse(request.url || '', true)]; [pathname] is relative
    to the mount point [/universe/locale/]. *)
Record ParsedUrl := {
  pathname : option string;
  query : Query.t;
}.

(** What the handler wrote with [writeHead] and [end]. *)
Record Response := {
  statusCode : Z;
  headers : gmap string string;
  body : option string;
}.

(** The handler either calls [next()] or answers. *)
Inductive Handled :=
| Next
| Responded (r : Response).

(** Truthiness of a query parameter. *)
Definition queryTruthy (q : option QueryValue) : bool :=
  match q with
  | None => false
  | Some (QString s) => negb (String.eqb s "")
  | Some (QArray _) => true
  end.

(** [q === s] for a string [s]. *)
Definition strictEquals (q : option QueryValue) (s : string) : bool :=
  match q with
  | Some (QString t) => String.eqb t s
  | _ => false
  end.

(** [list.includes(q)]: strict equality against the elements. *)
Definition includes (l : list string) (q : option QueryValue) : bool :=
  existsb (strictEquals q) l.

(** The test of line 153: a [type] that is given and is none of the three
    supported ones. *)
Definition unsupportedType (type : option QueryValue) : bool :=
  queryTruthy type && negb (includes ["js"; "json"; "yml"] type).

(** [${q}] for a truthy parameter: an array prints its items joined by commas. *)
Definition queryToString (q : QueryValue) : string :=
  match q with
  | QString s => s
  | QArray items => String.concat "," items
  end.

(** A parameter with default [false], and one without default. *)
Definition orFalse (q : option QueryValue) : Arg :=
  match q with
  | Some v => AQuery v
  | None => AFalse
  end.

Definition orUndefined (q : option QueryValue) : Arg :=
  match q with
  | Some v => AQuery v
  | None => AUndefined
  end.

(** The character classes of the locale pattern, under the [i] flag. *)
Definition isLetter (c : ascii) : bool :=
  let n := nat_of_ascii c in
  (Nat.leb 65 n && Nat.leb n 90) || (Nat.leb 97 n && Nat.leb n 122).

Definition isDigit (c : ascii) : bool :=
  let n := nat_of_ascii c in
  Nat.leb 48 n && Nat.leb n 57.

Definition isLocaleChar (c : ascii) : bool :=
  isLetter c || isDigit c || Ascii.eqb c "-"%char || Ascii.eqb c "_"%char.

(** Longest prefix of [s] made of characters satisfying [p] (a greedy star). *)
Fixpoint takeWhile (p : ascii -> bool) (s : string) : string :=
  match s with
  | String c rest => if p c then String c (takeWhile p rest) else EmptyString
  | EmptyString => EmptyString
  end.

(** The locale captured by the pattern of line 159, matched at the start of
    [pathname] without regard to case: an optional slash, then (captured) two
    letters followed by the longest run of letters, digits, hyphens and
    underscores. *)
Definition matchLocale (pathname : string) : option string :=
  let rest :=
    match pathname with
    | String "/"%char r => r
    | _ => pathname
    end in
  match rest with
  | String a (String b tail) =>
      if isLetter a && isLetter b
      then Some (String a (String b (takeWhile isLocaleChar tail)))
      else None
  | _ => None
  end.

(** The double-quote character used in the [Content-Disposition] value. *)
Definition dquote : string := String (ascii_of_nat 34) EmptyString.

Section Endpoint.
Variables getJS getJSON getYML : Formatter.
(** [i18n.options.translationsHeaders]. *)
Variable translationsHeaders : gmap string string.

(** The handler mounted on [/universe/locale/], lines 141-207. *)
Definition handler (now : string) (cache : Cache) (url : ParsedUrl)
  : Cache * Handled :=
  let q := query url in
  let type := Query.type q in
  if unsupportedType type
  then (cache, Responded {| statusCode := 415; headers := ∅; body := None |})
  else
    let locale := pathname url ≫= matchLocale in
    if negb (truthy locale) then (cache, Next)
    else
      match getCache getJS getJSON getYML now cache locale with
      | (cache, Entry e) =>
          if negb (truthy (Some (GetCacheEntry.updatedAt e)))
          then (cache,
                Responded {| statusCode := 501; headers := ∅; body := None |})
          else
            let loc := propertyKey locale in
            let headers :=
              <["Last-Modified" := GetCacheEntry.updatedAt e]>
                translationsHeaders in
            let headers :=
              if queryTruthy (Query.attachment q)
              then
                let filename :=
                  loc ++ ".i18n."
                      ++ (if queryTruthy type
                          then from_option queryToString "js" type
                          else "js") in
                <["Content-Disposition" :=
                    "attachment; filename=" ++ dquote ++ filename ++ dquote]>
                  headers
              else headers in
            let namespace := orUndefined (Query.namespace q) in
            if strictEquals type "json"
            then
              (cache,
               Responded
                 {| statusCode := 200;
                    headers :=
                      headers ∪ {["Content-Type" :=
                                    "application/json; charset=utf-8"]};
                    body := Some (GetCacheEntry.getJSON e loc namespace
                                    (orFalse (Query.diff q))) |})
            else if strictEquals type "yml"
            then
              (cache,
               Responded
                 {| statusCode := 200;
                    headers :=
                      headers ∪ {["Content-Type" :=
                                    "text/yaml; charset=utf-8"]};
                    body := Some (GetCacheEntry.getYML e loc namespace
                                    (orFalse (Query.diff q))) |})
            else
              (cache,
               Responded
                 {| statusCode := 200;
                    headers :=
                      headers ∪ {["Content-Type" :=
                                    "application/javascript; charset=utf-8"]};
                    body := Some (GetCacheEntry.getJS e loc namespace
                                    (orFalse (Query.preload q))) |})
      | (cache, InheritedMember _) =>
          (* an inherited member has no [updatedAt] *)
          (cache, Responded {| statusCode := 501; headers := ∅; body := None |})
      | (cache, WholeCache _) =>
          (* not reached: [locale] is truthy here; the mapping itself
             carries no [updatedAt] *)
          (cache, Responded {| statusCode := 501; headers := ∅; body := None |})
      end.
End Endpoint.


(** ** Remote locale loader *)

(** A value stored in the [queryParams] object. *)
Inductive ParamValue :=
| PString (s : string)
| PNumber (n : Z).

(** String conversion of a property read off [queryParams]. *)
Definition paramToString (v : option ParamValue) : string :=
  match v with
  | Some (PString s) => s
  | Some (PNumber n) => pretty n
  | None => "undefined"
  end.

Module LoadOptions.
(** The second argument of [i18n.loadLocale]; an absent field is [None]. *)
Record t := Build {
  fresh : option bool;
  host : option string;
  pathOnHost : option string;
  queryParams : option (gmap string ParamValue);
  silent : option bool;
}.
End LoadOptions.

(** What the remote host answers to the GET request. *)
Inductive Reply :=
| Rejected                         (* [fetch] or [data.json()] failed *)
| Json (content : option string).  (* the [content] field of [json || {}] *)

(** Calls the loader makes to its collaborators, in order. *)
Inductive Effect (T : Type) :=
| Logged (message : string)
| Fetched (url : string)
| TranslationsAdded (locale : string) (translations : T)
| ChangeEmitted
| ErrorPrinted
| MissingContentPrinted.
Arguments Logged {T} message.
Arguments Fetched {T} url.
Arguments TranslationsAdded {T} locale translations.
Arguments ChangeEmitted {T}.
Arguments ErrorPrinted {T}.
Arguments MissingContentPrinted {T}.

Section Loader.
Variable normalize : string -> option string.
(** [resolve] of the [url] module. *)
Variable resolve : string -> string -> string.
(** [i18n.options.hostUrl], [.pathOnHost] and [.defaultLocale]. *)
Variables hostUrl pathOnHostOption defaultLocale : string.
(** [i18n.getLocale()]. *)
Variable currentLocale : string.
(** The remote host, and [JSON.parse(stripJsonComments(content))], which
    throws on malformed input. *)
Variable fetchJson : string -> Reply.
Variable T : Type.
Variable parseContent : string -> option T.

(** [i18n.loadLocale], lines 73-127.  [nowMs] is [new Date().getTime()].
    The result is the cache, the [queryParams] object as the loader leaves
    it, and the calls made. *)
Definition loadLocale (nowMs : Z) (cache : Cache) (locale : string)
    (options : LoadOptions.t)
  : Cache * gmap string ParamValue * list (Effect T) :=
  let fresh := default false (LoadOptions.fresh options) in
  let host := default hostUrl (LoadOptions.host options) in
  let pathOnHost := default pathOnHostOption (LoadOptions.pathOnHost options) in
  let queryParams := default ∅ (LoadOptions.queryParams options) in
  let silent := default false (LoadOptions.silent options) in
  let normalizedLocale := normalize locale in
  if negb (truthy normalizedLocale)
  then (cache, queryParams,
        [Logged ("Unrecognized locale " ++ dquote ++ locale ++ dquote)])
  else
    let normalizedLocale := propertyKey normalizedLocale in
    let queryParams := <["type" := PString "json"]> queryParams in
    let queryParams :=
      if fresh then <["ts" := PNumber nowMs]> queryParams else queryParams in
    let url :=
      resolve host
        (pathOnHost ++ normalizedLocale ++ "?type="
                    ++ paramToString (queryParams !! "type")) in
    match fetchJson url with
    | Rejected => (cache, queryParams, [Fetched url; ErrorPrinted])
    | Json content =>
        if truthy content
        then
          match parseContent (propertyKey content) with
          | Some translations =>
              (invalidate cache normalizedLocale, queryParams,
               Fetched url :: TranslationsAdded normalizedLocale translations
                 :: (if negb silent
                        && (String.prefix normalizedLocale currentLocale
                            || String.prefix normalizedLocale defaultLocale)
                     then [ChangeEmitted]
                     else []))
          | None => (cache, queryParams, [Fetched url; ErrorPrinted])
          end
        else (cache, queryParams, [Fetched url; MissingContentPrinted])
    end.
End Loader.


(** ** Sequences of registry operations *)

(** One operation on the registry, with the ambient context it runs in. *)
Inductive Call :=
| Opened (connection : Connection.t)
| Closed (connection : Connection.t)
| LocaleSet (amb : Ambient) (locale : string) (connectionId : option string)
| MethodCalled (sameLocaleOnServerConnection : bool) (amb : Ambient)
    (this_connection : option Connection.t) (locale : EJSON).

Section Calls.
Variable normalize : string -> option string.

Definition call (reg : Registry) (c : Call) : Registry * Outcome unit :=
  match c with
  | Opened connection => (onConnection reg connection, Return tt)
  | Closed connection => (onClose reg connection, Return tt)
  | LocaleSet amb locale connectionId =>
      setLocaleOnConnection normalize amb reg locale connectionId
  | MethodCalled flag amb this_connection locale =>
      setServerLocaleForConnection normalize flag amb reg this_connection locale
  end.

(** The registry after a sequence of operations; a throwing operation leaves
    the registry as it was and the sequence goes on. *)
Definition calls (reg : Registry) (cs : list Call) : Registry :=
  foldl (fun reg c => fst (call reg c)) reg cs.
End Calls.

(** The operation opens or closes the connection with this id. *)
Definition opensOrCloses (id : string) (c : Call) : Prop :=
  match c with
  | Opened connection | Closed connection => Connection.id connection = id
  | _ => False
  end.

(** ** Sequences of cache operations *)

(** One operation that touches the cache: a read through [i18n.getCache], a
    request served by the handler, or the deletion a successful reload of a
    normalized locale performs. *)
Inductive CacheCall :=
| Got (now : string) (locale : option string)
| Served (now : string) (url : ParsedUrl)
| Reloaded (normalizedLocale : string).

Section CacheCalls.
Variables getJS getJSON getYML : Formatter.
Variable translationsHeaders : gmap string string.

Definition cacheCall (cache : Cache) (c : CacheCall) : Cache :=
  match c with
  | Got now locale => fst (getCache getJS getJSON getYML now cache locale)
  | Served now url =>
      fst (handler getJS getJSON getYML translationsHeaders now cache url)
  | Reloaded normalizedLocale => invalidate cache normalizedLocale
  end.

Definition cacheCalls (cache : Cache) (cs : list CacheCall) : Cache :=
  foldl cacheCall cache cs.
End CacheCalls.

(** ** Contextual locale *)

(** The getter installed on [i18n._contextualLocale], lines 15-16: [own] is
    what the original getter [_get()] returns; when that is [undefined] the
    locale of the current connection is used. *)
Definition contextualLocale_get (own : option string) (amb : Ambient)
    (reg : Registry) : option string :=
  nullish own (_getConnectionLocale amb reg None).

(** ** Vocabulary for the properties *)

(** The ids of the open connections after an operation, given those before:
    only the transport's open and close events change them. *)
Definition track (open : gset string) (c : Call) : gset string :=
  match c with
  | Opened connection => {[Connection.id connection]} ∪ open
  | Closed connection => open ∖ {[Connection.id connection]}
  | _ => open
  end.

(** The operation hands [setLocaleOnConnection] no locale that the
    normaliser fails to recognise. *)
Definition recognised (normalize : string -> option string) (c : Call) : Prop :=
  match c with
  | LocaleSet _ locale _ => normalize locale <> None
  | MethodCalled _ _ _ (EString locale) => normalize locale <> None
  | _ => True
  end.

(** No entry of the registry holds [undefined]. *)
Definition allStrings (reg : Registry) : Prop :=
  forall id, reg !! id <> Some None.

(** Every entry of the cache carries a non-empty timestamp. *)
Definition allStamped (cache : Cache) : Prop :=
  forall locale e, cache !! locale = Some e -> GetCacheEntry.updatedAt e <> "".

(** The clock reading an operation on the cache uses is a non-empty string,
    as every result of [toUTCString] is. *)
Definition timely (c : CacheCall) : Prop :=
  match c with
  | Got now _ | Served now _ => now <> ""
  | Reloaded _ => True
  end.

(** The path once the optional leading slash of the pattern is taken off. *)
Definition afterSlash (pathname : string) : string :=
  match pathname with
  | String "/"%char r => r
  | _ => pathname
  end.

(** Every character of [s] satisfies [p]. *)
Fixpoint allChars (p : ascii -> bool) (s : string) : bool :=
  match s with
  | String c rest => p c && allChars p rest
  | EmptyString => true
  end.

(** [s] is empty or starts with a character that fails [p]. *)
Definition stopsAt (p : ascii -> bool) (s : string) : Prop :=
  match s with
  | String c _ => p c = false
  | EmptyString => True
  end.

(** The status code of an answer; [None] when the request was passed on. *)
Definition statusOf (h : Handled) : option Z :=
  match h with
  | Responded r => Some (statusCode r)
  | Next => None
  end.

(** ** Sample collaborators and data *)

(** A normaliser that recognises three locales only. *)
Definition sampleNormalize (locale : string) : option string :=
  if String.eqb locale "fr" then Some "fr"
  else if String.eqb locale "en" then Some "en"
  else if String.eqb locale "en-us" then Some "en-US"
  else None.

(** No ambient context at all: reading the invocation throws. *)
Definition outsideAnyContext : Ambient :=
  {| currentInvocation := Throws; publishConnectionId := None |}.

(** Inside a method invoked over the connection with this id. *)
Definition insideMethodOf (id : string) : Ambient :=
  {| currentInvocation :=
       Yields (Some (Invocation.Build (Some (Connection.Build id))));
     publishConnectionId := None |}.

Definition c1 : Connection.t := Connection.Build "c1".

Definition noQuery : Query.t := Query.Build None None None None None.

Definition sampleFormatter (name : string) : Formatter :=
  fun locale _ _ => name ++ ":" ++ locale.

(** Stands for [resolve] on a host that ends in a slash and a plain relative
    path, where the result is the concatenation. *)
Definition sampleResolve (host path : string) : string := host ++ path.

(** A remote host that answers every request with the same translations. *)
Definition sampleFetchJson (url : string) : Reply := Json (Some "{}").

Definition sampleNow : string := "Mon, 02 Nov 2026 20:51:00 GMT".


(** * Properties *)

(** ** Connection identity resolver *)

Lemma _getConnectionId_throws amb connection :
  currentInvocation amb = Throws ->
  _getConnectionId amb connection = Connection.id <$> connection.
Proof. unfold _getConnectionId. by intros ->. Qed.

Lemma _getConnectionId_yields amb connection invocation :
  currentInvocation amb = Yields invocation ->
  _getConnectionId amb connection =
    nullish (Connection.id <$> (invocation ≫= Invocation.connection))
            (publishConnectionId amb).
Proof. unfold _getConnectionId. by intros ->. Qed.

(** C2, as stated, fails: inside a method invoked over connection B, a call
    that passes connection A explicitly gets B's id, not A's. *)
Lemma _getConnectionId_explicit_overridden :
  _getConnectionId (insideMethodOf "B") (Some (Connection.Build "A")) = Some "B"
  /\ Some "B" <> Some (Connection.id (Connection.Build "A")).
Proof. split; [reflexivity | discriminate]. Qed.

(** C2, amended: the ambient invocation is read first.  When that read
    throws, the result is the explicit connection's id (none without an
    explicit connection).  When the invocation carries a connection, the
    result is that connection's id whatever the explicit argument.
    Otherwise, when the publish context holds a value, the result is that
    value.  With no explicit connection, no invocation connection and no
    publish value the result is no connection. *)
Theorem _getConnectionId_order (amb : Ambient) (connection : option Connection.t) :
  (currentInvocation amb = Throws ->
     _getConnectionId amb connection = Connection.id <$> connection)
  /\ (forall invocation ambient,
        currentInvocation amb = Yields (Some invocation) ->
        Invocation.connection invocation = Some ambient ->
        _getConnectionId amb connection = Some (Connection.id ambient))
  /\ (forall invocation published,
        currentInvocation amb = Yields invocation ->
        invocation ≫= Invocation.connection = None ->
        publishConnectionId amb = Some published ->
        _getConnectionId amb connection = Some published)
  /\ (connection = None ->
      (forall invocation,
         currentInvocation amb = Yields invocation ->
         invocation ≫= Invocation.connection = None) ->
      publishConnectionId amb = None ->
      _getConnectionId amb connection = None).
Proof.
  repeat split.
  - apply _getConnectionId_throws.
  - intros invocation ambient Hinv Hconn.
    rewrite (_getConnectionId_yields _ _ _ Hinv). simpl. by rewrite Hconn.
  - intros invocation published Hinv Hnone Hpub.
    rewrite (_getConnectionId_yields _ _ _ Hinv), Hnone. simpl. exact Hpub.
  - intros -> Hnone Hpub.
    destruct (currentInvocation amb) as [|invocation] eqn:Hinv.
    + by rewrite (_getConnectionId_throws _ _ Hinv).
    + rewrite (_getConnectionId_yields _ _ _ Hinv), (Hnone _ eq_refl).
      simpl. exact Hpub.
Qed.

(** Each of the four situations of the resolver arises. *)
Lemma _getConnectionId_order_witness :
  _getConnectionId outsideAnyContext (Some c1) = Some "c1"
  /\ _getConnectionId (insideMethodOf "B") (Some c1) = Some "B"
  /\ _getConnectionId
       {| currentInvocation := Yields None; publishConnectionId := Some "P" |}
       (Some c1) = Some "P"
  /\ _getConnectionId outsideAnyContext None = None.
Proof.
  split; [| split; [| split]].
  - exact (proj1 (_getConnectionId_order outsideAnyContext (Some c1)) eq_refl).
  - exact (proj1 (proj2 (_getConnectionId_order (insideMethodOf "B") (Some c1)))
             _ _ eq_refl eq_refl).
  - exact (proj1 (proj2 (proj2 (_getConnectionId_order
             {| currentInvocation := Yields None;
                publishConnectionId := Some "P" |} (Some c1))))
             _ _ eq_refl eq_refl eq_refl).
  - apply (proj2 (proj2 (proj2 (_getConnectionId_order outsideAnyContext None))));
      [reflexivity | discriminate | reflexivity].
Defined.

(** ** Connection locale registry *)

Lemma registryGet_Some (reg : Registry) (id : string) :
  registryGet reg (Some id) = mjoin (reg !! id).
Proof. reflexivity. Qed.

(** C4: once a call resolves to the id of connection [c], the locale read
    right after [c] was opened is the empty string; after [c] was closed its
    entry is gone and the locale read is no locale, from whatever registry
    the close started. *)
Theorem onConnection_onClose_locale (amb : Ambient) (reg : Registry)
    (c : Connection.t) (asked : option Connection.t) :
  _getConnectionId amb asked = Some (Connection.id c) ->
  _getConnectionLocale amb (onConnection reg c) asked = Some ""
  /\ onClose reg c !! Connection.id c = None
  /\ _getConnectionLocale amb (onClose reg c) asked = None
  /\ _getConnectionLocale amb (onClose (onConnection reg c) c) asked = None.
Proof.
  intros Hid. unfold _getConnectionLocale. rewrite Hid, !registryGet_Some.
  unfold onConnection, onClose.
  by rewrite lookup_insert_eq, !lookup_delete_eq.
Qed.

Lemma onConnection_onClose_locale_witness :
  _getConnectionLocale (insideMethodOf "c1") (onConnection ∅ c1) None = Some ""
  /\ onClose ∅ c1 !! Connection.id c1 = None
  /\ _getConnectionLocale (insideMethodOf "c1") (onClose ∅ c1) None = None
  /\ _getConnectionLocale (insideMethodOf "c1")
       (onClose (onConnection ∅ c1) c1) None = None.
Proof.
  exact (onConnection_onClose_locale (insideMethodOf "c1") ∅ c1 None eq_refl).
Defined.

Section RegistryProperties.
Variable normalize : string -> option string.

Lemma setLocaleOnConnection_string amb (reg : Registry) locale id l :
  reg !! id = Some (Some l) ->
  setLocaleOnConnection normalize amb reg locale (Some id)
  = (<[id := normalize locale]> reg, Return tt).
Proof.
  intros H. unfold setLocaleOnConnection. rewrite registryGet_Some, H.
  reflexivity.
Qed.

Lemma setLocaleOnConnection_not_string amb (reg : Registry) locale id :
  mjoin (reg !! id) = None ->
  setLocaleOnConnection normalize amb reg locale (Some id)
  = (reg, Throw ("There is no connection under id: " ++ id)).
Proof.
  intros H. unfold setLocaleOnConnection. rewrite registryGet_Some, H.
  reflexivity.
Qed.

(** A call that throws leaves the registry as it was. *)
Lemma setLocaleOnConnection_throw_unchanged amb (reg : Registry) locale cid msg :
  snd (setLocaleOnConnection normalize amb reg locale cid) = Throw msg ->
  fst (setLocaleOnConnection normalize amb reg locale cid) = reg.
Proof.
  unfold setLocaleOnConnection.
  by destruct (registryGet reg _).
Qed.

(** An entry holding [undefined] survives every operation other than
    opening or closing that very connection. *)
Lemma call_keeps_undefined (reg : Registry) id (c : Call) :
  reg !! id = Some None ->
  ~ opensOrCloses id c ->
  fst (call normalize reg c) !! id = Some None.
Proof.
  intros Hreg Hc.
  assert (Hset : forall amb locale cid,
             fst (setLocaleOnConnection normalize amb reg locale cid) !! id
             = Some None).
  { intros amb locale cid. unfold setLocaleOnConnection.
    set (k := match cid with Some c0 => Some c0 | None => _ end).
    unfold registryGet.
    destruct (decide (propertyKey k = id)) as [->|Hne].
    - by rewrite Hreg.
    - destruct (mjoin (reg !! propertyKey k)); simpl; [|done].
      by rewrite lookup_insert_ne. }
  destruct c as [conn|conn|amb locale cid|flag amb this locale]; simpl in *.
  - unfold onConnection. by rewrite lookup_insert_ne.
  - unfold onClose. by rewrite lookup_delete_ne.
  - apply Hset.
  - unfold setServerLocaleForConnection.
    destruct (negb (String.eqb (typeof locale) "string") || negb flag); [done|].
    destruct (negb (truthy (_getConnectionId amb this))); [done|].
    destruct locale; first [apply Hset | done].
Qed.

Lemma calls_keep_undefined (cs : list Call) (reg : Registry) id :
  reg !! id = Some None ->
  Forall (fun c => ~ opensOrCloses id c) cs ->
  calls normalize reg cs !! id = Some None.
Proof.
  revert reg. induction cs as [|c cs IH]; intros reg Hreg Hcs; [done|].
  inversion Hcs as [|? ? Hc Hcs']; subst. simpl.
  apply IH; [|done]. by apply call_keeps_undefined.
Qed.

(** C9: setting, on an open connection, a locale that normalisation does not
    recognise returns normally and stores [undefined] in the connection's
    entry.  From then on, whatever registry operations follow short of
    closing or re-opening that connection, the locale read for it is no
    locale and every [setLocaleOnConnection] for it throws the no-connection
    error. *)
Theorem setLocaleOnConnection_unrecognized (amb : Ambient) (reg : Registry)
    (locale : string) (id : string) (current : string) :
  reg !! id = Some (Some current) ->
  normalize locale = None ->
  let reg' := fst (setLocaleOnConnection normalize amb reg locale (Some id)) in
  snd (setLocaleOnConnection normalize amb reg locale (Some id)) = Return tt
  /\ reg' !! id = Some None
  /\ (forall later,
        Forall (fun c => ~ opensOrCloses id c) later ->
        (forall amb' asked,
           _getConnectionId amb' asked = Some id ->
           _getConnectionLocale amb' (calls normalize reg' later) asked = None)
        /\ (forall amb' locale',
              setLocaleOnConnection normalize amb' (calls normalize reg' later)
                locale' (Some id)
              = (calls normalize reg' later,
                 Throw ("There is no connection under id: " ++ id)))).
Proof.
  intros Hopen Hnorm reg'. subst reg'.
  rewrite (setLocaleOnConnection_string _ _ _ _ _ Hopen), Hnorm. simpl.
  assert (Hundef : <[id := None]> reg !! id = Some None)
    by apply lookup_insert_eq.
  split; [done|]. split; [done|].
  intros later Hlater.
  assert (Hkept := calls_keep_undefined later _ id Hundef Hlater).
  split.
  - intros amb' asked Hid. unfold _getConnectionLocale.
    by rewrite Hid, registryGet_Some, Hkept.
  - intros amb' locale'. apply setLocaleOnConnection_not_string.
    by rewrite Hkept.
Qed.

(** C8: when the locale read for a connection is "fr", the method called
    with an argument that is not a string returns normally, leaves the
    registry as it was, and the locale read is still "fr". *)
Theorem setServerLocaleForConnection_non_string
    (sameLocaleOnServerConnection : bool) (amb amb' : Ambient) (reg : Registry)
    (this_connection asked : option Connection.t) (argument : EJSON) :
  _getConnectionLocale amb reg asked = Some "fr" ->
  typeof argument <> "string" ->
  let result :=
    setServerLocaleForConnection normalize sameLocaleOnServerConnection amb'
      reg this_connection argument in
  snd result = Return tt
  /\ fst result = reg
  /\ _getConnectionLocale amb (fst result) asked = Some "fr".
Proof.
  intros Hfr Hty result. subst result. unfold setServerLocaleForConnection.
  apply String.eqb_neq in Hty. rewrite Hty. simpl. by repeat split.
Qed.
End RegistryProperties.

Lemma setLocaleOnConnection_unrecognized_witness :
  let reg := onConnection ∅ c1 in
  let reg' :=
    fst (setLocaleOnConnection sampleNormalize outsideAnyContext reg
           "xx-bogus" (Some "c1")) in
  let later := [LocaleSet outsideAnyContext "en" (Some "c1");
                Opened (Connection.Build "c2")] in
  reg !! "c1" = Some (Some "")
  /\ sampleNormalize "xx-bogus" = None
  /\ reg' !! "c1" = Some None
  /\ _getConnectionLocale (insideMethodOf "c1")
       (calls sampleNormalize reg' later) None = None
  /\ setLocaleOnConnection sampleNormalize outsideAnyContext
       (calls sampleNormalize reg' later) "fr" (Some "c1")
     = (calls sampleNormalize reg' later,
        Throw "There is no connection under id: c1").
Proof.
  intros reg reg' later.
  assert (Hopen : reg !! "c1" = Some (Some "")) by (vm_compute; reflexivity).
  assert (Hnorm : sampleNormalize "xx-bogus" = None) by reflexivity.
  destruct (setLocaleOnConnection_unrecognized sampleNormalize
              outsideAnyContext reg "xx-bogus" "c1" "" Hopen Hnorm)
    as (_ & Hundef & Hafter).
  assert (Hlater : Forall (fun c => ~ opensOrCloses "c1" c) later).
  { repeat constructor; simpl; [tauto | discriminate]. }
  destruct (Hafter later Hlater) as [Hread Hthrow].
  exact (conj Hopen (conj Hnorm (conj Hundef
           (conj (Hread (insideMethodOf "c1") None eq_refl)
                 (Hthrow outsideAnyContext "fr"))))).
Defined.

Lemma setServerLocaleForConnection_non_string_witness :
  let reg :=
    fst (setLocaleOnConnection sampleNormalize outsideAnyContext
           (onConnection ∅ c1) "fr" (Some "c1")) in
  let result :=
    setServerLocaleForConnection sampleNormalize true (insideMethodOf "c1")
      reg (Some c1) (ENumber 42) in
  _getConnectionLocale (insideMethodOf "c1") reg (Some c1) = Some "fr"
  /\ typeof (ENumber 42) <> "string"
  /\ snd result = Return tt
  /\ fst result = reg
  /\ _getConnectionLocale (insideMethodOf "c1") (fst result) (Some c1)
     = Some "fr".
Proof.
  intros reg result.
  assert (Hfr : _getConnectionLocale (insideMethodOf "c1") reg (Some c1)
                = Some "fr") by (vm_compute; reflexivity).
  assert (Hty : typeof (ENumber 42) <> "string") by discriminate.
  exact (conj Hfr (conj Hty
           (setServerLocaleForConnection_non_string sampleNormalize true
              (insideMethodOf "c1") (insideMethodOf "c1") reg (Some c1)
              (Some c1) (ENumber 42) Hfr Hty))).
Defined.

(** C5 fails on the code.  Connection c1 is opened and never closed; a first
    [setLocaleOnConnection] with a locale the normaliser does not recognise
    returns normally and leaves [undefined] in the entry of c1; the next
    [setLocaleOnConnection], with the recognised locale "fr", throws the
    no-connection error although c1 still has its registry entry. *)
Example setLocaleOnConnection_throws_while_open :
  let reg0 := onConnection ∅ c1 in
  let first :=
    setLocaleOnConnection sampleNormalize outsideAnyContext reg0
      "xx-bogus" (Some "c1") in
  let second :=
    setLocaleOnConnection sampleNormalize outsideAnyContext (fst first)
      "fr" (Some "c1") in
  snd first = Return tt
  /\ fst first !! "c1" = Some None
  /\ snd second = Throw "There is no connection under id: c1"
  /\ _getConnectionLocale outsideAnyContext (fst second) (Some c1) = None.
Proof. vm_compute. repeat split. Qed.

(** ** Locale cache and delivery endpoint *)

Lemma truthy_Some (s : string) : s <> "" -> truthy (Some s) = true.
Proof. intros H. simpl. by apply String.eqb_neq in H as ->. Qed.

Lemma truthy_Some_inv (s : string) : truthy (Some s) = true -> s <> "".
Proof. simpl. intros H ->. discriminate. Qed.

Lemma matchLocale_nonempty pathname L : matchLocale pathname = Some L -> L <> "".
Proof.
  unfold matchLocale.
  destruct (match pathname with String "/"%char r => r | _ => pathname end)
    as [|a [|b tail]]; try discriminate.
  destruct (isLetter a && isLetter b); [|discriminate].
  intros [= <-]. discriminate.
Qed.

Lemma unsupportedType_false_iff (type : option QueryValue) :
  unsupportedType type = false
  <-> type = None \/ type = Some (QString "")
      \/ type = Some (QString "js") \/ type = Some (QString "json")
      \/ type = Some (QString "yml").
Proof.
  unfold unsupportedType, includes. destruct type as [[s|items]|]; simpl.
  - destruct (String.eqb_spec s ""), (String.eqb_spec s "js"),
      (String.eqb_spec s "json"), (String.eqb_spec s "yml");
      subst; simpl; split; intros H; try discriminate; auto 6;
      destruct H as [H|[H|[H|[H|H]]]]; congruence.
  - split; [discriminate|]. intros [H|[H|[H|[H|H]]]]; discriminate.
  - split; auto.
Qed.

Section CacheProperties.
Variables getJS getJSON getYML : Formatter.
Variable translationsHeaders : gmap string string.

(** The entry a read creates at time [now]. *)
Local Abbreviation entryAt now := (GetCacheEntry.Build now getYML getJSON getJS).

Lemma getCache_miss now (cache : Cache) L :
  L <> "" -> cache !! L = None -> inherited L = false ->
  getCache getJS getJSON getYML now cache (Some L)
  = (<[L := entryAt now]> cache, Entry (entryAt now)).
Proof.
  intros HL Hnone Hown. unfold getCache.
  rewrite (truthy_Some _ HL). simpl. by rewrite Hnone, Hown.
Qed.

Lemma getCache_hit now (cache : Cache) L e :
  L <> "" -> cache !! L = Some e ->
  getCache getJS getJSON getYML now cache (Some L) = (cache, Entry e).
Proof.
  intros HL Hsome. unfold getCache.
  rewrite (truthy_Some _ HL). simpl. by rewrite Hsome.
Qed.

Lemma getCache_inherited now (cache : Cache) L :
  L <> "" -> cache !! L = None -> inherited L = true ->
  getCache getJS getJSON getYML now cache (Some L)
  = (cache, InheritedMember L).
Proof.
  intros HL Hnone Hproto. unfold getCache.
  rewrite (truthy_Some _ HL). simpl. by rewrite Hnone, Hproto.
Qed.

(** A read never removes or replaces an entry. *)
Lemma getCache_keeps now (cache : Cache) locale L e :
  cache !! L = Some e ->
  fst (getCache getJS getJSON getYML now cache locale) !! L = Some e.
Proof.
  intros Hsome. unfold getCache.
  destruct (negb (truthy locale)); [done|].
  destruct (cache !! propertyKey locale) eqn:Hk; [done|].
  destruct (inherited (propertyKey locale)); [done|]. simpl.
  rewrite lookup_insert_ne; [done|]. congruence.
Qed.

(** The cache the handler leaves: untouched when it answers 415 or passes
    the request on, otherwise the cache after the read of the locale. *)
Lemma handler_cache now (cache : Cache) url :
  fst (handler getJS getJSON getYML translationsHeaders now cache url)
  = if unsupportedType (Query.type (query url))
       || negb (truthy (pathname url ≫= matchLocale))
    then cache
    else fst (getCache getJS getJSON getYML now cache
                (pathname url ≫= matchLocale)).
Proof.
  unfold handler.
  destruct (unsupportedType _); [done|].
  destruct (negb (truthy _)); [done|]. simpl.
  destruct (getCache _ _ _ now cache _) as [cache' [whole|e|name]];
    [done| |done]. simpl.
  by repeat case_match.
Qed.

Lemma handler_keeps now (cache : Cache) url L e :
  cache !! L = Some e ->
  fst (handler getJS getJSON getYML translationsHeaders now cache url) !! L
  = Some e.
Proof.
  intros Hsome. rewrite handler_cache.
  destruct (_ || _); [done|]. by apply getCache_keeps.
Qed.

Lemma cacheCalls_keep (cs : list CacheCall) (cache : Cache) L e :
  cache !! L = Some e ->
  Forall (fun c => c <> Reloaded L) cs ->
  cacheCalls getJS getJSON getYML translationsHeaders cache cs !! L = Some e.
Proof.
  revert cache. induction cs as [|c cs IH]; intros cache Hsome Hcs; [done|].
  inversion Hcs as [|? ? Hc Hcs']; subst. simpl. apply IH; [|done].
  destruct c as [now locale|now url|l]; simpl.
  - by apply getCache_keeps.
  - by apply handler_keeps.
  - unfold invalidate. rewrite lookup_delete_ne; [done|]. congruence.
Qed.

(** The answer to a request whose type is supported and whose path yields
    the locale [L], once the read returned the entry [e]. *)
Lemma handler_entry now (cache : Cache) url L e :
  unsupportedType (Query.type (query url)) = false ->
  pathname url ≫= matchLocale = Some L ->
  snd (getCache getJS getJSON getYML now cache (Some L)) = Entry e ->
  (GetCacheEntry.updatedAt e = "" ->
   snd (handler getJS getJSON getYML translationsHeaders now cache url)
   = Responded {| statusCode := 501; headers := ∅; body := None |})
  /\ (GetCacheEntry.updatedAt e <> "" ->
      exists r,
        snd (handler getJS getJSON getYML translationsHeaders now cache url)
        = Responded r
        /\ statusCode r = 200%Z
        /\ headers r !! "Last-Modified" = Some (GetCacheEntry.updatedAt e)
        /\ is_Some (body r)).
Proof.
  intros Htype Hpath Hread.
  assert (HL : L <> "").
  { destruct (pathname url) as [p|]; [|discriminate].
    by apply (matchLocale_nonempty p). }
  unfold handler. rewrite Htype, Hpath, (truthy_Some _ HL). simpl.
  destruct (getCache _ _ _ now cache (Some L)) as [cache' r] eqn:Hget.
  simpl in Hread. subst r.
  split.
  - intros ->. reflexivity.
  - intros Hstamp. apply String.eqb_neq in Hstamp. rewrite Hstamp. simpl.
    assert (Hlm : forall extra : gmap string string,
               ((if queryTruthy (Query.attachment (query url))
                 then <["Content-Disposition" :=
                          "attachment; filename=" ++ dquote
                            ++ (L ++ ".i18n."
                                  ++ (if queryTruthy (Query.type (query url))
                                      then from_option queryToString "js"
                                             (Query.type (query url))
                                      else "js")) ++ dquote]>
                        (<["Last-Modified" := GetCacheEntry.updatedAt e]>
                           translationsHeaders)
                 else <["Last-Modified" := GetCacheEntry.updatedAt e]>
                        translationsHeaders) ∪ extra) !! "Last-Modified"
               = Some (GetCacheEntry.updatedAt e)).
    { intros extra. apply lookup_union_Some_l.
      destruct (queryTruthy (Query.attachment (query url))).
      - rewrite lookup_insert_ne by discriminate. apply lookup_insert_eq.
      - apply lookup_insert_eq. }
    destruct (strictEquals _ "json"); [|destruct (strictEquals _ "yml")];
      eexists; (split; [reflexivity|]); simpl; eauto.
Qed.

(** The answer when the read returned an inherited member. *)
Lemma handler_inherited now (cache : Cache) url L name :
  unsupportedType (Query.type (query url)) = false ->
  pathname url ≫= matchLocale = Some L ->
  snd (getCache getJS getJSON getYML now cache (Some L)) = InheritedMember name ->
  snd (handler getJS getJSON getYML translationsHeaders now cache url)
  = Responded {| statusCode := 501; headers := ∅; body := None |}.
Proof.
  intros Htype Hpath Hread.
  assert (HL : L <> "").
  { destruct (pathname url) as [p|]; [|discriminate].
    by apply (matchLocale_nonempty p). }
  unfold handler. rewrite Htype, Hpath, (truthy_Some _ HL). simpl.
  destruct (getCache _ _ _ now cache (Some L)) as [cache' r].
  simpl in Hread. by subst r.
Qed.

(** A request with an unsupported type is answered 415 at once. *)
Lemma handler_unsupported now (cache : Cache) url :
  unsupportedType (Query.type (query url)) = true ->
  handler getJS getJSON getYML translationsHeaders now cache url
  = (cache, Responded {| statusCode := 415; headers := ∅; body := None |}).
Proof. intros Htype. unfold handler. by rewrite Htype. Qed.

(** The answer to a request served from the entry [e], in full. *)
Lemma handler_ok now (cache : Cache) url L e :
  unsupportedType (Query.type (query url)) = false ->
  pathname url ≫= matchLocale = Some L ->
  snd (getCache getJS getJSON getYML now cache (Some L)) = Entry e ->
  GetCacheEntry.updatedAt e <> "" ->
  exists ext contentType content,
    ((Query.type (query url) = Some (QString "json") /\ ext = "json"
      /\ contentType = "application/json; charset=utf-8"
      /\ content = GetCacheEntry.getJSON e L
                     (orUndefined (Query.namespace (query url)))
                     (orFalse (Query.diff (query url))))
     \/ (Query.type (query url) = Some (QString "yml") /\ ext = "yml"
         /\ contentType = "text/yaml; charset=utf-8"
         /\ content = GetCacheEntry.getYML e L
                        (orUndefined (Query.namespace (query url)))
                        (orFalse (Query.diff (query url))))
     \/ ((Query.type (query url) = None
          \/ Query.type (query url) = Some (QString "")
          \/ Query.type (query url) = Some (QString "js"))
         /\ ext = "js"
         /\ contentType = "application/javascript; charset=utf-8"
         /\ content = GetCacheEntry.getJS e L
                        (orUndefined (Query.namespace (query url)))
                        (orFalse (Query.preload (query url)))))
    /\ snd (handler getJS getJSON getYML translationsHeaders now cache url)
       = Responded
           {| statusCode := 200;
              headers :=
                (if queryTruthy (Query.attachment (query url))
                 then <["Content-Disposition" :=
                          "attachment; filename=" ++ dquote
                            ++ (L ++ ".i18n." ++ ext) ++ dquote]>
                        (<["Last-Modified" := GetCacheEntry.updatedAt e]>
                           translationsHeaders)
                 else <["Last-Modified" := GetCacheEntry.updatedAt e]>
                        translationsHeaders)
                ∪ {["Content-Type" := contentType]};
              body := Some content |}.
Proof.
  intros Htype Hpath Hread Hstamp.
  assert (HL : L <> "").
  { destruct (pathname url) as [p|]; [|discriminate].
    by apply (matchLocale_nonempty p). }
  apply String.eqb_neq in Hstamp.
  unfold handler. rewrite Htype, Hpath, (truthy_Some _ HL). simpl.
  destruct (getCache _ _ _ now cache (Some L)) as [cache' r].
  simpl in Hread. subst r. simpl. rewrite Hstamp. simpl.
  apply unsupportedType_false_iff in Htype
    as [Hty|[Hty|[Hty|[Hty|Hty]]]]; rewrite !Hty; simpl.
  - exists "js", "application/javascript; charset=utf-8". eexists.
    split; [|reflexivity]. right; right. auto.
  - exists "js", "application/javascript; charset=utf-8". eexists.
    split; [|reflexivity]. right; right. auto.
  - exists "js", "application/javascript; charset=utf-8". eexists.
    split; [|reflexivity]. right; right. auto.
  - exists "json", "application/json; charset=utf-8". eexists.
    split; [|reflexivity]. left. auto.
  - exists "yml", "text/yaml; charset=utf-8". eexists.
    split; [|reflexivity]. right; left. auto.
Qed.
End CacheProperties.

Section EndpointClaims.
Variables getJS getJSON getYML : Formatter.
Variable translationsHeaders : gmap string string.

Local Abbreviation entryAt now := (GetCacheEntry.Build now getYML getJSON getJS).

(** X24: for a non-empty locale [L] that has no entry yet and is not the name
    of a member inherited from [Object.prototype], the first read creates
    an entry stamped with the time of that read and returns it; a second
    read, after any reads, served requests and reloads of other locales,
    returns that same entry and leaves the cache as it is; after the entry
    of [L] is invalidated, the next read returns an entry stamped with the
    time of that later read. *)
Theorem getCache_lifecycle (L : string) (cache : Cache) (t1 t2 t3 : string) :
  L <> "" ->
  cache !! L = None ->
  inherited L = false ->
  exists e1 e3,
    getCache getJS getJSON getYML t1 cache (Some L)
    = (<[L := e1]> cache, Entry e1)
    /\ GetCacheEntry.updatedAt e1 = t1
    /\ getCache getJS getJSON getYML t2 (<[L := e1]> cache) (Some L)
       = (<[L := e1]> cache, Entry e1)
    /\ (forall between,
          Forall (fun c => c <> Reloaded L) between ->
          let cache2 :=
            cacheCalls getJS getJSON getYML translationsHeaders
              (<[L := e1]> cache) between in
          getCache getJS getJSON getYML t2 cache2 (Some L)
          = (cache2, Entry e1))
    /\ invalidate (<[L := e1]> cache) L !! L = None
    /\ snd (getCache getJS getJSON getYML t3
              (invalidate (<[L := e1]> cache) L) (Some L))
       = Entry e3
    /\ GetCacheEntry.updatedAt e3 = t3.
Proof.
  intros HL Hnone Hown. exists (entryAt t1), (entryAt t3).
  assert (Hin : <[L := entryAt t1]> cache !! L = Some (entryAt t1))
    by apply lookup_insert_eq.
  assert (Hout : invalidate (<[L := entryAt t1]> cache) L !! L = None)
    by apply lookup_delete_eq.
  split; [by apply getCache_miss|].
  split; [done|].
  split; [by apply getCache_hit|].
  split.
  { intros between Hbetween. cbv zeta. apply getCache_hit; [done|].
    by apply cacheCalls_keep. }
  split; [done|].
  by rewrite (getCache_miss _ _ _ _ _ _ HL Hout Hown).
Qed.

(** C10, amended: for a non-empty locale string [L] that has no entry and is
    not the name of a member inherited from [Object.prototype], the read
    inserts an entry stamped with the current time and returns it, so the
    cache differs afterwards.  A request whose path yields [L] and whose
    type is absent, empty or one of js, json and yml leaves that entry in
    the cache, and it stays there through any later reads and served
    requests, until a reload of [L] deletes it.  A request with any other
    type is answered 415 and leaves the cache as it was. *)
Theorem getCache_inserts (L : string) (cache : Cache) (now : string) :
  L <> "" ->
  cache !! L = None ->
  inherited L = false ->
  getCache getJS getJSON getYML now cache (Some L)
  = (<[L := entryAt now]> cache, Entry (entryAt now))
  /\ fst (getCache getJS getJSON getYML now cache (Some L)) <> cache
  /\ (forall url,
        unsupportedType (Query.type (query url)) = false ->
        pathname url ≫= matchLocale = Some L ->
        let served :=
          fst (handler getJS getJSON getYML translationsHeaders now cache url)
        in
        served !! L = Some (entryAt now)
        /\ forall later,
             Forall (fun c => c <> Reloaded L) later ->
             cacheCalls getJS getJSON getYML translationsHeaders served later
               !! L
             = Some (entryAt now))
  /\ (forall url,
        unsupportedType (Query.type (query url)) = true ->
        handler getJS getJSON getYML translationsHeaders now cache url
        = (cache,
           Responded {| statusCode := 415; headers := ∅; body := None |})).
Proof.
  intros HL Hnone Hown.
  assert (Hget := getCache_miss getJS getJSON getYML now cache L HL Hnone Hown).
  split; [done|]. rewrite Hget. simpl. split; [|split].
  - intros Heq. rewrite <- Heq, lookup_insert_eq in Hnone. discriminate.
  - intros url Htype Hpath. cbv zeta.
    assert (Hserved :
              fst (handler getJS getJSON getYML translationsHeaders now cache
                     url) !! L
              = Some (entryAt now)).
    { rewrite handler_cache, Htype, Hpath, (truthy_Some _ HL), Hget. simpl.
      apply lookup_insert_eq. }
    split; [done|]. intros later Hlater. by apply cacheCalls_keep.
  - intros url. apply handler_unsupported.
Qed.

(** C1, amended: take a request whose type is absent, empty or one of js,
    json and yml and whose path yields a locale [L] that is not the name of
    a member inherited from [Object.prototype].  The handler answers 501
    with no body exactly when the cache already holds an entry for [L]
    whose [updatedAt] is empty.  When the cache holds no entry for [L], the
    read creates one stamped with the current time, and the handler answers
    200 with that time as [Last-Modified] and, as body, the output of the
    formatter the type selects. *)
Theorem handler_501 (now : string) (cache : Cache) (url : ParsedUrl)
    (L : string) :
  now <> "" ->
  unsupportedType (Query.type (query url)) = false ->
  pathname url ≫= matchLocale = Some L ->
  inherited L = false ->
  let served :=
    handler getJS getJSON getYML translationsHeaders now cache url in
  (snd served = Responded {| statusCode := 501; headers := ∅; body := None |}
   <-> exists e, cache !! L = Some e /\ GetCacheEntry.updatedAt e = "")
  /\ (cache !! L = None ->
      fst served = <[L := entryAt now]> cache
      /\ exists r,
           snd served = Responded r
           /\ statusCode r = 200%Z
           /\ headers r !! "Last-Modified" = Some now
           /\ ((Query.type (query url) = Some (QString "json")
                /\ body r = Some (getJSON L
                                    (orUndefined (Query.namespace (query url)))
                                    (orFalse (Query.diff (query url)))))
               \/ (Query.type (query url) = Some (QString "yml")
                   /\ body r = Some (getYML L
                                       (orUndefined (Query.namespace (query url)))
                                       (orFalse (Query.diff (query url)))))
               \/ ((Query.type (query url) = None
                    \/ Query.type (query url) = Some (QString "")
                    \/ Query.type (query url) = Some (QString "js"))
                   /\ body r = Some (getJS L
                                       (orUndefined (Query.namespace (query url)))
                                       (orFalse (Query.preload (query url))))))).
Proof.
  intros Hnow Htype Hpath Hown. cbv zeta.
  assert (HL : L <> "").
  { destruct (pathname url) as [p|]; [|discriminate].
    by apply (matchLocale_nonempty p). }
  destruct (cache !! L) as [e|] eqn:Hcache.
  - destruct (handler_entry getJS getJSON getYML translationsHeaders
                now cache url L e Htype Hpath) as [H501 H200].
    { by rewrite (getCache_hit _ _ _ _ _ _ _ HL Hcache). }
    split; [|discriminate]. split.
    + intros Hresp. exists e. split; [done|].
      destruct (String.eqb_spec (GetCacheEntry.updatedAt e) "") as [|Hne];
        [done|].
      destruct (H200 Hne) as (r & Hr & Hstatus & _).
      rewrite Hr in Hresp. injection Hresp as ->. discriminate.
    + intros (e' & [= <-] & Hempty). by apply H501.
  - pose proof (getCache_miss getJS getJSON getYML now cache L HL Hcache Hown)
      as Hget.
    destruct (handler_ok getJS getJSON getYML translationsHeaders
                now cache url L (entryAt now) Htype Hpath)
      as (ext & contentType & content & Hcases & Hanswer);
      [by rewrite Hget | done |].
    split.
    + split.
      * intros Hresp. rewrite Hanswer in Hresp. discriminate.
      * intros (e & Habs & _). discriminate.
    + intros _. split.
      * rewrite handler_cache, Htype, Hpath, (truthy_Some _ HL), Hget. done.
      * eexists. split; [exact Hanswer|]. simpl. split; [done|]. split.
        -- apply lookup_union_Some_l.
           destruct (queryTruthy _);
             [rewrite lookup_insert_ne by discriminate|];
             apply lookup_insert_eq.
        -- destruct Hcases as [(Hty & _ & _ & ->)|[(Hty & _ & _ & ->)
                                                  |(Hty & _ & _ & ->)]];
             auto.
Qed.

(** C7, amended: when the path does not yield a locale, the handler passes
    the request on, writes no response and leaves the cache alone, provided
    the type parameter is absent, empty or one of js, json and yml, whatever
    the other parameters; with any other type it answers 415 with no body,
    whatever the path. *)
Theorem handler_no_locale (now : string) (cache : Cache) (url : ParsedUrl) :
  (pathname url ≫= matchLocale = None ->
   unsupportedType (Query.type (query url)) = false ->
   handler getJS getJSON getYML translationsHeaders now cache url
   = (cache, Next))
  /\ (unsupportedType (Query.type (query url)) = true ->
      handler getJS getJSON getYML translationsHeaders now cache url
      = (cache, Responded {| statusCode := 415; headers := ∅; body := None |})).
Proof.
  split.
  - intros Hpath Htype. unfold handler. by rewrite Htype, Hpath.
  - apply handler_unsupported.
Qed.
End EndpointClaims.

(** C6 fails on the code.  The path [/constructor] yields the well-formed
    locale constructor, for which the cache has no entry.  The first read
    finds the member every object inherits under that name, creates no
    entry and returns that member, which carries no timestamp; after an
    invalidation the next read does the same, so no new timestamp appears
    either. *)
Example getCache_inherited_name_creates_nothing :
  let get :=
    getCache (sampleFormatter "getJS") (sampleFormatter "getJSON")
      (sampleFormatter "getYML") in
  let first := get "t1" ∅ (Some "constructor") in
  let third := get "t3" (invalidate (fst first) "constructor")
                 (Some "constructor") in
  matchLocale "/constructor" = Some "constructor"
  /\ (∅ : Cache) !! "constructor" = None
  /\ snd first = InheritedMember "constructor"
  /\ fst first !! "constructor" = None
  /\ snd third = InheritedMember "constructor"
  /\ fst third !! "constructor" = None.
Proof. vm_compute. repeat split. Qed.

Lemma getCache_lifecycle_witness :
  "en" <> ""
  /\ (∅ : Cache) !! "en" = None
  /\ inherited "en" = false
  /\ exists e1 e3,
       getCache (sampleFormatter "getJS") (sampleFormatter "getJSON")
         (sampleFormatter "getYML") "t1" ∅ (Some "en")
       = (<["en" := e1]> ∅, Entry e1)
       /\ GetCacheEntry.updatedAt e1 = "t1"
       /\ GetCacheEntry.updatedAt e3 = "t3".
Proof.
  assert (Hne : "en" <> "") by discriminate.
  assert (Hnone : (∅ : Cache) !! "en" = None) by reflexivity.
  assert (Hown : inherited "en" = false) by reflexivity.
  destruct (getCache_lifecycle (sampleFormatter "getJS")
              (sampleFormatter "getJSON") (sampleFormatter "getYML") ∅
              "en" ∅ "t1" "t2" "t3" Hne Hnone Hown)
    as (e1 & e3 & Hfirst & Ht1 & _ & _ & _ & _ & Ht3).
  exact (conj Hne (conj Hnone (conj Hown
           (ex_intro _ e1 (ex_intro _ e3 (conj Hfirst (conj Ht1 Ht3))))))).
Defined.

(** C10, as stated, fails: a GET whose path yields the locale xx but whose
    type is xml is answered 415 before the cache is read, and the cache
    still has no entry for xx. *)
Lemma handler_unsupported_type_adds_no_entry :
  let url :=
    {| pathname := Some "/xx";
       query := Query.Build None None None None (Some (QString "xml")) |} in
  let served :=
    handler (sampleFormatter "getJS") (sampleFormatter "getJSON")
      (sampleFormatter "getYML") ∅ sampleNow ∅ url in
  pathname url ≫= matchLocale = Some "xx"
  /\ fst served !! "xx" = None
  /\ snd served
     = Responded {| statusCode := 415; headers := ∅; body := None |}.
Proof. vm_compute. repeat split. Qed.

Lemma getCache_inserts_witness :
  let url := {| pathname := Some "/xx"; query := noQuery |} in
  let served :=
    handler (sampleFormatter "getJS") (sampleFormatter "getJSON")
      (sampleFormatter "getYML") ∅ sampleNow ∅ url in
  "xx" <> ""
  /\ (∅ : Cache) !! "xx" = None
  /\ inherited "xx" = false
  /\ unsupportedType (Query.type (query url)) = false
  /\ pathname url ≫= matchLocale = Some "xx"
  /\ GetCacheEntry.updatedAt <$> fst served !! "xx" = Some sampleNow.
Proof.
  intros url served.
  assert (Hne : "xx" <> "") by discriminate.
  assert (Hnone : (∅ : Cache) !! "xx" = None) by reflexivity.
  assert (Hown : inherited "xx" = false) by reflexivity.
  assert (Htype : unsupportedType (Query.type (query url)) = false)
    by reflexivity.
  assert (Hpath : pathname url ≫= matchLocale = Some "xx") by reflexivity.
  destruct (getCache_inserts (sampleFormatter "getJS")
              (sampleFormatter "getJSON") (sampleFormatter "getYML") ∅
              "xx" ∅ sampleNow Hne Hnone Hown) as (_ & _ & Hserved & _).
  destruct (Hserved url Htype Hpath) as [Hentry _].
  refine (conj Hne (conj Hnone (conj Hown (conj Htype (conj Hpath _))))).
  subst served. rewrite Hentry. reflexivity.
Defined.

(** C1, as stated, fails: the cache is empty, the path yields the locale xx,
    and the handler answers 200 with the formatted translations. *)
Lemma handler_never_loaded_locale_answers_200 :
  let url := {| pathname := Some "/xx"; query := noQuery |} in
  let served :=
    handler (sampleFormatter "getJS") (sampleFormatter "getJSON")
      (sampleFormatter "getYML") ∅ sampleNow ∅ url in
  (∅ : Cache) !! "xx" = None
  /\ pathname url ≫= matchLocale = Some "xx"
  /\ exists r, snd served = Responded r
               /\ statusCode r = 200%Z
               /\ headers r !! "Last-Modified" = Some sampleNow
               /\ body r = Some "getJS:xx".
Proof.
  split; [reflexivity|]. split; [reflexivity|].
  eexists. split; [reflexivity|]. vm_compute. repeat split.
Qed.

Lemma handler_501_witness :
  let url := {| pathname := Some "/xx"; query := noQuery |} in
  let stale : Cache :=
    {["xx" := GetCacheEntry.Build "" (sampleFormatter "getYML")
                (sampleFormatter "getJSON") (sampleFormatter "getJS")]} in
  sampleNow <> ""
  /\ unsupportedType (Query.type (query url)) = false
  /\ pathname url ≫= matchLocale = Some "xx"
  /\ inherited "xx" = false
  /\ snd (handler (sampleFormatter "getJS") (sampleFormatter "getJSON")
            (sampleFormatter "getYML") ∅ sampleNow stale url)
     = Responded {| statusCode := 501; headers := ∅; body := None |}.
Proof.
  intros url stale.
  assert (Hnow : sampleNow <> "") by discriminate.
  assert (Htype : unsupportedType (Query.type (query url)) = false)
    by reflexivity.
  assert (Hpath : pathname url ≫= matchLocale = Some "xx") by reflexivity.
  assert (Hown : inherited "xx" = false) by reflexivity.
  refine (conj Hnow (conj Htype (conj Hpath (conj Hown _)))).
  apply (proj1 (handler_501 (sampleFormatter "getJS")
                  (sampleFormatter "getJSON") (sampleFormatter "getYML") ∅
                  sampleNow stale url "xx" Hnow Htype Hpath Hown)).
  eexists. split; [apply lookup_singleton_eq | reflexivity].
Defined.

(** C7, as stated, fails: the path 1 does not yield a locale, yet with the
    query parameter type=xml the handler answers 415 instead of passing the
    request on. *)
Lemma handler_no_locale_unsupported_type_415 :
  let url :=
    {| pathname := Some "/1";
       query := Query.Build None None None None (Some (QString "xml")) |} in
  pathname url ≫= matchLocale = None
  /\ handler (sampleFormatter "getJS") (sampleFormatter "getJSON")
       (sampleFormatter "getYML") ∅ sampleNow ∅ url
     = (∅, Responded {| statusCode := 415; headers := ∅; body := None |})
  /\ Responded {| statusCode := 415; headers := ∅; body := None |} <> Next.
Proof. split; [reflexivity|]. split; [reflexivity | discriminate]. Qed.

Lemma handler_no_locale_witness :
  let url :=
    {| pathname := Some "/1";
       query := Query.Build (Some (QString "1")) None (Some (QString "ns"))
                  None (Some (QString "json")) |} in
  let refused :=
    {| pathname := Some "/en";
       query := Query.Build None None None None (Some (QString "xml")) |} in
  pathname url ≫= matchLocale = None
  /\ unsupportedType (Query.type (query url)) = false
  /\ handler (sampleFormatter "getJS") (sampleFormatter "getJSON")
       (sampleFormatter "getYML") ∅ sampleNow ∅ url
     = (∅, Next)
  /\ unsupportedType (Query.type (query refused)) = true
  /\ handler (sampleFormatter "getJS") (sampleFormatter "getJSON")
       (sampleFormatter "getYML") ∅ sampleNow ∅ refused
     = (∅, Responded {| statusCode := 415; headers := ∅; body := None |}).
Proof.
  intros url refused.
  assert (Hpath : pathname url ≫= matchLocale = None) by reflexivity.
  assert (Htype : unsupportedType (Query.type (query url)) = false)
    by reflexivity.
  assert (Hrefused : unsupportedType (Query.type (query refused)) = true)
    by reflexivity.
  exact (conj Hpath (conj Htype
           (conj (proj1 (handler_no_locale (sampleFormatter "getJS")
                           (sampleFormatter "getJSON")
                           (sampleFormatter "getYML") ∅ sampleNow ∅ url)
                    Hpath Htype)
              (conj Hrefused
                 (proj2 (handler_no_locale (sampleFormatter "getJS")
                           (sampleFormatter "getJSON")
                           (sampleFormatter "getYML") ∅ sampleNow ∅ refused)
                    Hrefused))))).
Defined.

(** ** Remote locale loader *)

Section LoaderProperties.
Variable normalize : string -> option string.
Variable resolve : string -> string -> string.
Variables hostUrl pathOnHostOption defaultLocale currentLocale : string.
Variable fetchJson : string -> Reply.
Variable T : Type.
Variable parseContent : string -> option T.

(** The loader with its collaborators fixed. *)
Local Abbreviation loadWith :=
  (loadLocale normalize resolve hostUrl pathOnHostOption defaultLocale
     currentLocale fetchJson T parseContent).

(** The [type] read back when the URL is built is the one just stored. *)
Lemma queryParams_type (fresh : bool) (nowMs : Z)
    (queryParams : gmap string ParamValue) :
  paramToString
    ((if fresh
      then <["ts" := PNumber nowMs]> (<["type" := PString "json"]> queryParams)
      else <["type" := PString "json"]> queryParams) !! "type")
  = "json".
Proof.
  destruct fresh.
  - rewrite lookup_insert_ne by discriminate. by rewrite lookup_insert_eq.
  - by rewrite lookup_insert_eq.
Qed.

(** C3 fails on the code.  For a recognised locale and [fresh = true] the
    loader stores the current time under [ts] in [queryParams], but the URL
    it requests is built from the host, the path on host, the normalized
    locale and [type=json] only: the calls it makes, the request included,
    are the same at any other time and with any other value of [fresh]. *)
Theorem loadLocale_fresh_url (nowMs : Z) (cache : Cache) (locale : string)
    (host pathOnHost : option string)
    (queryParams : option (gmap string ParamValue)) (silent : option bool)
    (normalizedLocale : string) :
  normalize locale = Some normalizedLocale ->
  normalizedLocale <> "" ->
  let options := LoadOptions.Build (Some true) host pathOnHost queryParams silent in
  let url :=
    resolve (default hostUrl host)
      (default pathOnHostOption pathOnHost ++ normalizedLocale ++ "?type=json") in
  (exists rest, snd (loadWith nowMs cache locale options) = Fetched url :: rest)
  /\ snd (fst (loadWith nowMs cache locale options)) !! "ts"
     = Some (PNumber nowMs)
  /\ (forall nowMs' fresh',
        snd (loadWith nowMs' cache locale
               (LoadOptions.Build fresh' host pathOnHost queryParams silent))
        = snd (loadWith nowMs cache locale options)).
Proof.
  intros Hnorm Hne options url. subst options url.
  assert (Hshape : forall now (fresh : option bool),
    loadWith now cache locale
      (LoadOptions.Build fresh host pathOnHost queryParams silent)
    = let qp := if default false fresh
                then <["ts" := PNumber now]>
                       (<["type" := PString "json"]> (default ∅ queryParams))
                else <["type" := PString "json"]> (default ∅ queryParams) in
      let url := resolve (default hostUrl host)
                   (default pathOnHostOption pathOnHost ++ normalizedLocale
                      ++ "?type=json") in
      match fetchJson url with
      | Rejected => (cache, qp, [Fetched url; ErrorPrinted])
      | Json content =>
          if truthy content
          then
            match parseContent (propertyKey content) with
            | Some translations =>
                (invalidate cache normalizedLocale, qp,
                 Fetched url :: TranslationsAdded normalizedLocale translations
                   :: (if negb (default false silent)
                          && (String.prefix normalizedLocale currentLocale
                              || String.prefix normalizedLocale defaultLocale)
                       then [ChangeEmitted]
                       else []))
            | None => (cache, qp, [Fetched url; ErrorPrinted])
            end
          else (cache, qp, [Fetched url; MissingContentPrinted])
      end).
  { intros now fresh. unfold loadLocale. simpl.
    rewrite Hnorm, (truthy_Some _ Hne). simpl.
    by rewrite queryParams_type. }
  split; [|split].
  - rewrite Hshape. simpl.
    destruct (fetchJson _) as [|content]; [by eexists|].
    destruct (truthy content); [|by eexists].
    destruct (parseContent _); by eexists.
  - rewrite Hshape. simpl.
    destruct (fetchJson _) as [|content]; simpl;
      [apply lookup_insert_eq| ].
    destruct (truthy content); simpl; [|apply lookup_insert_eq].
    destruct (parseContent _); apply lookup_insert_eq.
  - intros nowMs' fresh'. rewrite !Hshape. simpl.
    destruct (fetchJson _) as [|content]; [done|].
    destruct (truthy content); [|done].
    by destruct (parseContent _).
Qed.
End LoaderProperties.

Lemma loadLocale_fresh_url_witness :
  let load :=
    loadLocale sampleNormalize sampleResolve "http://localhost:3000/"
      "universe/locale/" "en" "en" sampleFetchJson string Some in
  let fresh := LoadOptions.Build (Some true) None None None None in
  sampleNormalize "en-us" = Some "en-US"
  /\ "en-US" <> ""
  /\ (exists rest,
        snd (load 1793652660000%Z ∅ "en-us" fresh)
        = Fetched "http://localhost:3000/universe/locale/en-US?type=json"
            :: rest)
  /\ snd (fst (load 1793652660000%Z ∅ "en-us" fresh)) !! "ts"
     = Some (PNumber 1793652660000).
Proof.
  intros load fresh.
  assert (Hnorm : sampleNormalize "en-us" = Some "en-US") by reflexivity.
  assert (Hne : "en-US" <> "") by discriminate.
  destruct (loadLocale_fresh_url sampleNormalize sampleResolve
              "http://localhost:3000/" "universe/locale/" "en" "en"
              sampleFetchJson string Some 1793652660000%Z ∅ "en-us"
              None None None None "en-US" Hnorm Hne) as (Hurl & Hts & _).
  exact (conj Hnorm (conj Hne (conj Hurl Hts))).
Defined.

(** ** The registry while every entry is a string *)

Section TypedRegistry.
Variable normalize : string -> option string.

(** As long as no entry holds [undefined], a call throws exactly when the
    connection has no entry; a call that does not throw stores the
    normalisation of the locale. *)
Lemma setLocaleOnConnection_typed amb (reg : Registry) locale id :
  (forall k, reg !! k <> Some None) ->
  (snd (setLocaleOnConnection normalize amb reg locale (Some id))
   = Throw ("There is no connection under id: " ++ id)
   <-> reg !! id = None)
  /\ (is_Some (reg !! id) ->
      setLocaleOnConnection normalize amb reg locale (Some id)
      = (<[id := normalize locale]> reg, Return tt)).
Proof.
  intros Htyped. specialize (Htyped id).
  unfold setLocaleOnConnection. rewrite registryGet_Some.
  destruct (reg !! id) as [[l|]|]; simpl; [|done|].
  - split; [split; discriminate | done].
  - split; [done | by intros [? ?]].
Qed.
End TypedRegistry.

(** ** The model on sample requests *)

Example matchLocale_samples :
  matchLocale "/en" = Some "en"
  /\ matchLocale "en-US" = Some "en-US"
  /\ matchLocale "/pt_BR/extra" = Some "pt_BR"
  /\ matchLocale "/EN.json" = Some "EN"
  /\ matchLocale "/e" = None
  /\ matchLocale "/1en" = None
  /\ matchLocale "//en" = None
  /\ matchLocale "" = None.
Proof. repeat split. Qed.

Example handler_json_sample :
  let cache : Cache :=
    {["en" := GetCacheEntry.Build "T" (sampleFormatter "getYML")
                (sampleFormatter "getJSON") (sampleFormatter "getJS")]} in
  let url :=
    {| pathname := Some "/en";
       query := Query.Build None None None None (Some (QString "json")) |} in
  exists r,
    handler (sampleFormatter "getJS") (sampleFormatter "getJSON")
      (sampleFormatter "getYML") ∅ sampleNow cache url
    = (cache, Responded r)
    /\ statusCode r = 200%Z
    /\ headers r !! "Content-Type" = Some "application/json; charset=utf-8"
    /\ headers r !! "Last-Modified" = Some "T"
    /\ body r = Some "getJSON:en".
Proof. eexists. split; [reflexivity|]. vm_compute. repeat split. Qed.

Example handler_attachment_sample :
  let url :=
    {| pathname := Some "/en";
       query := Query.Build (Some (QString "true")) None None None
                  (Some (QString "yml")) |} in
  exists r,
    snd (handler (sampleFormatter "getJS") (sampleFormatter "getJSON")
           (sampleFormatter "getYML") ∅ sampleNow ∅ url)
    = Responded r
    /\ headers r !! "Content-Disposition"
       = Some ("attachment; filename=" ++ dquote ++ "en.i18n.yml" ++ dquote)
    /\ body r = Some "getYML:en".
Proof. eexists. split; [reflexivity|]. vm_compute. repeat split. Qed.

Example handler_repeated_type_sample :
  snd (handler (sampleFormatter "getJS") (sampleFormatter "getJSON")
         (sampleFormatter "getYML") ∅ sampleNow ∅
         {| pathname := Some "/en";
            query := Query.Build None None None None
                       (Some (QArray ["js"; "json"])) |})
  = Responded {| statusCode := 415; headers := ∅; body := None |}.
Proof. reflexivity. Qed.

Example setServerLocaleForConnection_sample :
  let reg := onConnection ∅ c1 in
  let set :=
    setServerLocaleForConnection sampleNormalize true (insideMethodOf "c1")
      reg (Some c1) (EString "en-us") in
  snd set = Return tt
  /\ _getConnectionLocale (insideMethodOf "c1") (fst set) None = Some "en-US".
Proof. vm_compute. repeat split. Qed.

(** * Further properties of the registry *)

(** X1: When reading the ambient invocation does not throw, the explicit
    connection plays no part: any two calls resolve to the same id and read
    the same locale, whatever connections they pass. *)
Theorem _getConnectionId_ignores_explicit (amb : Ambient)
    (invocation : option Invocation.t) (reg : Registry)
    (asked asked' : option Connection.t) :
  currentInvocation amb = Yields invocation ->
  _getConnectionId amb asked = _getConnectionId amb asked'
  /\ _getConnectionLocale amb reg asked = _getConnectionLocale amb reg asked'.
Proof.
  intros Hinv. unfold _getConnectionLocale.
  by rewrite !(_getConnectionId_yields _ _ _ Hinv).
Qed.

Lemma _getConnectionId_ignores_explicit_witness :
  _getConnectionId (insideMethodOf "B") (Some c1)
  = _getConnectionId (insideMethodOf "B") None
  /\ _getConnectionLocale (insideMethodOf "B") (onConnection ∅ c1) (Some c1)
     = _getConnectionLocale (insideMethodOf "B") (onConnection ∅ c1) None.
Proof.
  exact (_getConnectionId_ignores_explicit (insideMethodOf "B") _
           (onConnection ∅ c1) (Some c1) None eq_refl).
Defined.

(** X2: Opening then closing a connection that had no entry gives the registry
    back, and closing a connection that has no entry changes nothing. *)
Theorem onConnection_onClose_restores (reg : Registry) (c : Connection.t) :
  reg !! Connection.id c = None ->
  onClose (onConnection reg c) c = reg /\ onClose reg c = reg.
Proof.
  intros Hnone. unfold onClose, onConnection.
  split; [by apply delete_insert_id | by apply delete_id].
Qed.

Lemma onConnection_onClose_restores_witness :
  onClose (onConnection (onConnection ∅ (Connection.Build "c2")) c1) c1
  = onConnection ∅ (Connection.Build "c2")
  /\ onClose (onConnection ∅ (Connection.Build "c2")) c1
     = onConnection ∅ (Connection.Build "c2").
Proof.
  apply (onConnection_onClose_restores
           (onConnection ∅ (Connection.Build "c2")) c1).
  vm_compute. reflexivity.
Defined.

Section RegistryFrames.
Variable normalize : string -> option string.

(** The two shapes of a [setLocaleOnConnection] result. *)
Lemma setLocaleOnConnection_cases amb (reg : Registry) locale cid :
  let key := propertyKey (nullish cid (_getConnectionId amb None)) in
  (mjoin (reg !! key) = None
   /\ setLocaleOnConnection normalize amb reg locale cid
      = (reg, Throw ("There is no connection under id: " ++ key)))
  \/ (exists current, reg !! key = Some (Some current)
      /\ setLocaleOnConnection normalize amb reg locale cid
         = (<[key := normalize locale]> reg, Return tt)).
Proof.
  unfold setLocaleOnConnection, registryGet, nullish. simpl.
  destruct (reg !! propertyKey _) as [[current|]|] eqn:Hreg; simpl;
    [right; by exists current | by left | by left].
Qed.

(** The three ways the method can end. *)
Lemma setServerLocaleForConnection_cases flag amb (reg : Registry) this
    (argument : EJSON) :
  setServerLocaleForConnection normalize flag amb reg this argument
  = (reg, Return tt)
  \/ exists locale id,
       argument = EString locale /\ flag = true
       /\ _getConnectionId amb this = Some id /\ id <> ""
       /\ setServerLocaleForConnection normalize flag amb reg this argument
          = setLocaleOnConnection normalize amb reg locale (Some id).
Proof.
  unfold setServerLocaleForConnection.
  destruct argument as [| | | |locale| |]; simpl; auto.
  destruct flag; simpl; auto.
  destruct (_getConnectionId amb this) as [id|] eqn:Hid; simpl; auto.
  destruct (String.eqb_spec id "") as [->|Hne]; simpl; auto.
  right. by exists locale, id.
Qed.

Lemma setLocaleOnConnection_dom amb (reg : Registry) locale cid :
  dom (fst (setLocaleOnConnection normalize amb reg locale cid)) = dom reg.
Proof.
  destruct (setLocaleOnConnection_cases amb reg locale cid)
    as [[_ ->]|(current & Hcur & ->)]; simpl; [done|].
  apply dom_insert_lookup_L. by rewrite Hcur.
Qed.

Lemma setServerLocaleForConnection_dom flag amb (reg : Registry) this argument :
  dom (fst (setServerLocaleForConnection normalize flag amb reg this argument))
  = dom reg.
Proof.
  destruct (setServerLocaleForConnection_cases flag amb reg this argument)
    as [->|(locale & id & _ & _ & _ & _ & ->)]; [done|].
  apply setLocaleOnConnection_dom.
Qed.

(** X3: [setLocaleOnConnection] never adds or removes an entry, and the only
    entry it can change is the one of the connection it was called for. *)
Theorem setLocaleOnConnection_frame (amb : Ambient) (reg : Registry)
    (locale : string) (connectionId : option string) :
  let reg' := fst (setLocaleOnConnection normalize amb reg locale connectionId) in
  dom reg' = dom reg
  /\ forall k,
       reg' !! k <> reg !! k ->
       k = propertyKey (nullish connectionId (_getConnectionId amb None)).
Proof.
  destruct (setLocaleOnConnection_cases amb reg locale connectionId)
    as [[_ ->]|(current & Hcur & ->)]; simpl; [done|].
  split.
  - apply dom_insert_lookup_L. by rewrite Hcur.
  - intros k Hk.
    destruct (decide (propertyKey (nullish connectionId
                                     (_getConnectionId amb None)) = k));
      [done|].
    by rewrite lookup_insert_ne in Hk.
Qed.

(** X4: The method never adds or removes an entry; the only entry it can change
    is the one of the connection the call resolves to, and then the new
    value is the normalisation of the string it was given. *)
Theorem setServerLocaleForConnection_frame
    (sameLocaleOnServerConnection : bool) (amb : Ambient) (reg : Registry)
    (this_connection : option Connection.t) (argument : EJSON) :
  let reg' :=
    fst (setServerLocaleForConnection normalize sameLocaleOnServerConnection
           amb reg this_connection argument) in
  dom reg' = dom reg
  /\ forall k,
       reg' !! k <> reg !! k ->
       _getConnectionId amb this_connection = Some k
       /\ exists locale,
            argument = EString locale /\ reg' !! k = Some (normalize locale).
Proof.
  destruct (setServerLocaleForConnection_cases sameLocaleOnServerConnection
              amb reg this_connection argument)
    as [->|(locale & id & -> & -> & Hid & Hne & ->)]; simpl; [done|].
  destruct (setLocaleOnConnection_cases amb reg locale (Some id))
    as [[_ ->]|(current & Hcur & ->)]; simpl in *; [done|].
  split.
  - apply dom_insert_lookup_L. by rewrite Hcur.
  - intros k Hk. destruct (decide (id = k)) as [<-|Hk'].
    + split; [done|]. exists locale. by rewrite lookup_insert_eq.
    + by rewrite lookup_insert_ne in Hk.
Qed.

(** X5: The method throws exactly when it is given a string, the option is on,
    the call resolves to a non-empty connection id, and the registry holds no
    string for that id. *)
Theorem setServerLocaleForConnection_throws_iff
    (sameLocaleOnServerConnection : bool) (amb : Ambient) (reg : Registry)
    (this_connection : option Connection.t) (argument : EJSON) :
  (exists message,
     snd (setServerLocaleForConnection normalize sameLocaleOnServerConnection
            amb reg this_connection argument) = Throw message)
  <-> exists locale id,
        argument = EString locale
        /\ sameLocaleOnServerConnection = true
        /\ _getConnectionId amb this_connection = Some id
        /\ id <> ""
        /\ mjoin (reg !! id) = None.
Proof.
  split.
  - intros [message Hthrow].
    destruct (setServerLocaleForConnection_cases sameLocaleOnServerConnection
                amb reg this_connection argument)
      as [Heq|(locale & id & Harg & Hflag & Hid & Hne & Heq)];
      rewrite Heq in Hthrow; [discriminate|].
    exists locale, id. repeat (split; [done|]).
    destruct (setLocaleOnConnection_cases amb reg locale (Some id))
      as [[Hnone _]|(current & _ & Hset)]; [done|].
    rewrite Hset in Hthrow. discriminate.
  - intros (locale & id & -> & -> & Hid & Hne & Hnone).
    exists ("There is no connection under id: " ++ id).
    unfold setServerLocaleForConnection. simpl.
    rewrite Hid, (truthy_Some _ Hne). simpl.
    by rewrite (setLocaleOnConnection_not_string _ _ _ _ _ Hnone).
Qed.
End RegistryFrames.

Section RegistryInvariants.
Variable normalize : string -> option string.

Lemma call_dom (reg : Registry) (c : Call) :
  dom (fst (call normalize reg c)) = track (dom reg) c.
Proof.
  destruct c as [conn|conn|amb locale cid|flag amb this argument]; simpl.
  - unfold onConnection. apply dom_insert_L.
  - unfold onClose. apply dom_delete_L.
  - apply setLocaleOnConnection_dom.
  - apply setServerLocaleForConnection_dom.
Qed.

Lemma call_allStrings (reg : Registry) (c : Call) :
  allStrings reg -> recognised normalize c ->
  allStrings (fst (call normalize reg c)).
Proof.
  intros Hreg Hc.
  assert (Hset : forall amb locale cid,
             normalize locale <> None ->
             allStrings (fst (setLocaleOnConnection normalize amb reg locale cid))).
  { intros amb locale cid Hnorm.
    destruct (setLocaleOnConnection_cases normalize amb reg locale cid)
      as [[_ ->]|(current & _ & ->)]; simpl; [done|].
    intros id. destruct (decide (propertyKey (nullish cid
                                   (_getConnectionId amb None)) = id)) as [<-|].
    - rewrite lookup_insert_eq. congruence.
    - by rewrite lookup_insert_ne. }
  destruct c as [conn|conn|amb locale cid|flag amb this argument]; simpl in *.
  - intros id. unfold onConnection.
    destruct (decide (Connection.id conn = id)) as [<-|].
    + by rewrite lookup_insert_eq.
    + by rewrite lookup_insert_ne.
  - intros id. unfold onClose.
    destruct (decide (Connection.id conn = id)) as [<-|].
    + by rewrite lookup_delete_eq.
    + by rewrite lookup_delete_ne.
  - by apply Hset.
  - destruct (setServerLocaleForConnection_cases normalize flag amb reg this
                argument) as [->|(locale & id & -> & _ & _ & _ & ->)];
      [done|]. by apply Hset.
Qed.

(** X6: Along any sequence of registry operations the connections that have an
    entry are exactly those opened and not yet closed: setting a locale, by
    the function or by the method, never registers or drops a connection. *)
Theorem calls_dom (cs : list Call) (reg : Registry) :
  dom (calls normalize reg cs) = foldl track (dom reg) cs.
Proof.
  revert reg. induction cs as [|c cs IH]; intros reg; [done|].
  simpl. rewrite <- call_dom. apply IH.
Qed.

(** X7: As long as every locale handed over is one the normaliser recognises, no
    entry ever holds [undefined]; then [setLocaleOnConnection] throws exactly
    for the connections that have no entry, and otherwise the locale read
    afterwards is the normalised one. *)
Theorem calls_allStrings (cs : list Call) (reg : Registry) :
  allStrings reg ->
  Forall (recognised normalize) cs ->
  let reg' := calls normalize reg cs in
  allStrings reg'
  /\ forall amb locale id,
       (snd (setLocaleOnConnection normalize amb reg' locale (Some id))
        = Throw ("There is no connection under id: " ++ id)
        <-> reg' !! id = None)
       /\ (is_Some (reg' !! id) ->
           registryGet
             (fst (setLocaleOnConnection normalize amb reg' locale (Some id)))
             (Some id)
           = normalize locale).
Proof.
  intros Hreg Hcs reg'.
  assert (Htyped : allStrings reg').
  { subst reg'. revert reg Hreg.
    induction Hcs as [|c cs Hc Hcs IH]; intros reg Hreg; [done|].
    simpl. apply IH. by apply call_allStrings. }
  split; [done|]. intros amb locale id.
  destruct (setLocaleOnConnection_typed normalize amb reg' locale id Htyped)
    as [Hthrow Hset].
  split; [done|].
  intros Hin. rewrite (Hset Hin). simpl.
  by rewrite registryGet_Some, lookup_insert_eq.
Qed.

(** X8: Two successive settings on a connection leave what the second alone
    leaves, provided the first locale is one the normaliser recognises. *)
Theorem setLocaleOnConnection_last_wins (amb amb' : Ambient) (reg : Registry)
    (first second id current : string) :
  reg !! id = Some (Some current) ->
  normalize first <> None ->
  setLocaleOnConnection normalize amb'
    (fst (setLocaleOnConnection normalize amb reg first (Some id)))
    second (Some id)
  = setLocaleOnConnection normalize amb' reg second (Some id).
Proof.
  intros Hcur Hfirst.
  rewrite (setLocaleOnConnection_string _ _ _ _ _ _ Hcur). simpl.
  destruct (normalize first) as [n|] eqn:Hn; [|done].
  rewrite (setLocaleOnConnection_string _ _ _ second id n)
    by apply lookup_insert_eq.
  rewrite (setLocaleOnConnection_string _ _ _ second id current Hcur).
  by rewrite insert_insert_eq.
Qed.

(** X9: The method called with a recognised locale, the option on, from a call
    that resolves to an open connection: it returns normally, stores the
    normalised locale for that connection, and from then on the contextual
    locale read on that connection is the normalised locale unless a
    contextual locale of its own is set, which wins. *)
Theorem setServerLocaleForConnection_sets (amb : Ambient) (reg : Registry)
    (this_connection : option Connection.t) (locale id normalized current : string) :
  _getConnectionId amb this_connection = Some id ->
  id <> "" ->
  reg !! id = Some (Some current) ->
  normalize locale = Some normalized ->
  let result :=
    setServerLocaleForConnection normalize true amb reg this_connection
      (EString locale) in
  result = (<[id := Some normalized]> reg, Return tt)
  /\ (forall amb' asked,
        _getConnectionId amb' asked = Some id ->
        _getConnectionLocale amb' (fst result) asked = Some normalized)
  /\ (forall amb' own,
        _getConnectionId amb' None = Some id ->
        contextualLocale_get own amb' (fst result)
        = Some (default normalized own)).
Proof.
  intros Hid Hne Hcur Hnorm result. subst result.
  unfold setServerLocaleForConnection. simpl.
  rewrite Hid, (truthy_Some _ Hne). simpl.
  rewrite (setLocaleOnConnection_string _ _ _ _ _ _ Hcur), Hnorm. simpl.
  split; [done|].
  assert (Hread : forall amb' asked,
             _getConnectionId amb' asked = Some id ->
             _getConnectionLocale amb' (<[id := Some normalized]> reg) asked
             = Some normalized).
  { intros amb' asked Hid'. unfold _getConnectionLocale.
    by rewrite Hid', registryGet_Some, lookup_insert_eq. }
  split; [done|]. intros amb' own Hid'. unfold contextualLocale_get.
  rewrite (Hread _ _ Hid'). by destruct own.
Qed.
End RegistryInvariants.

(** X10: The contextual locale on a connection that was opened and never given a
    locale is the empty string, not [undefined]; outside any connection it is
    [undefined] unless some connection is registered under the id
    "undefined". *)
Theorem contextualLocale_get_unset (amb : Ambient) (reg : Registry)
    (c : Connection.t) :
  (_getConnectionId amb None = Some (Connection.id c) ->
   contextualLocale_get None amb (onConnection reg c) = Some "")
  /\ (_getConnectionId amb None = None ->
      contextualLocale_get None amb reg = mjoin (reg !! "undefined")).
Proof.
  unfold contextualLocale_get, _getConnectionLocale. split; intros ->.
  - unfold onConnection. by rewrite registryGet_Some, lookup_insert_eq.
  - reflexivity.
Qed.

Lemma calls_allStrings_witness :
  let cs := [Opened c1;
             MethodCalled true (insideMethodOf "c1") (Some c1) (EString "fr");
             LocaleSet outsideAnyContext "en-us" (Some "c1")] in
  let reg' := calls sampleNormalize ∅ cs in
  allStrings reg'
  /\ snd (setLocaleOnConnection sampleNormalize outsideAnyContext reg' "en"
            (Some "c2"))
     = Throw "There is no connection under id: c2"
  /\ registryGet
       (fst (setLocaleOnConnection sampleNormalize outsideAnyContext reg' "en"
               (Some "c1"))) (Some "c1")
     = Some "en".
Proof.
  intros cs reg'.
  assert (Hempty : allStrings ∅) by (intros id; by rewrite lookup_empty).
  assert (Hcs : Forall (recognised sampleNormalize) cs).
  { repeat constructor; simpl; discriminate. }
  destruct (calls_allStrings sampleNormalize cs ∅ Hempty Hcs)
    as [Htyped Hset].
  refine (conj Htyped (conj _ _)).
  - apply (proj1 (Hset outsideAnyContext "en" "c2")). vm_compute. reflexivity.
  - apply (proj2 (Hset outsideAnyContext "en" "c1")). vm_compute. eauto.
Defined.

Lemma setLocaleOnConnection_last_wins_witness :
  setLocaleOnConnection sampleNormalize outsideAnyContext
    (fst (setLocaleOnConnection sampleNormalize outsideAnyContext
            (onConnection ∅ c1) "fr" (Some "c1")))
    "en" (Some "c1")
  = setLocaleOnConnection sampleNormalize outsideAnyContext
      (onConnection ∅ c1) "en" (Some "c1").
Proof.
  apply (setLocaleOnConnection_last_wins sampleNormalize outsideAnyContext
           outsideAnyContext (onConnection ∅ c1) "fr" "en" "c1" "").
  - vm_compute. reflexivity.
  - discriminate.
Defined.

Lemma setServerLocaleForConnection_sets_witness :
  let result :=
    setServerLocaleForConnection sampleNormalize true (insideMethodOf "c1")
      (onConnection ∅ c1) (Some c1) (EString "en-us") in
  result = (<["c1" := Some "en-US"]> (onConnection ∅ c1), Return tt)
  /\ _getConnectionLocale (insideMethodOf "c1") (fst result) None
     = Some "en-US"
  /\ contextualLocale_get None (insideMethodOf "c1") (fst result)
     = Some "en-US"
  /\ contextualLocale_get (Some "de") (insideMethodOf "c1") (fst result)
     = Some "de".
Proof.
  intros result.
  assert (Hopen : onConnection ∅ c1 !! "c1" = Some (Some ""))
    by (vm_compute; reflexivity).
  assert (Hne : "c1" <> "") by discriminate.
  destruct (setServerLocaleForConnection_sets sampleNormalize
              (insideMethodOf "c1") (onConnection ∅ c1) (Some c1)
              "en-us" "c1" "en-US" "" eq_refl Hne Hopen eq_refl)
    as (Hresult & Hread & Hctx).
  exact (conj Hresult
           (conj (Hread (insideMethodOf "c1") None eq_refl)
              (conj (Hctx (insideMethodOf "c1") None eq_refl)
                    (Hctx (insideMethodOf "c1") (Some "de") eq_refl)))).
Defined.

(** * Further properties of the locale pattern *)

Lemma append_cons (c : ascii) (s t : string) :
  String c s ++ t = String c (s ++ t).
Proof. reflexivity. Qed.

Lemma append_empty (s : string) : s ++ "" = s.
Proof. induction s as [|c s IH]; [done|]. by rewrite append_cons, IH. Qed.

Lemma takeWhile_split (p : ascii -> bool) (s : string) :
  exists rest,
    s = takeWhile p s ++ rest
    /\ allChars p (takeWhile p s) = true
    /\ stopsAt p rest.
Proof.
  induction s as [|c s (rest & Heq & Hall & Hstop)]; simpl.
  - by exists "".
  - destruct (p c) eqn:Hc.
    + exists rest. simpl. rewrite Hc, Hall, append_cons, <- Heq. done.
    + by exists (String c s).
Qed.

Lemma takeWhile_app (p : ascii -> bool) (run rest : string) :
  allChars p run = true -> stopsAt p rest -> takeWhile p (run ++ rest) = run.
Proof.
  intros Hall Hstop. induction run as [|c run IH].
  - change ("" ++ rest) with rest.
    destruct rest as [|c rest]; [done|]. simpl in *. by rewrite Hstop.
  - simpl in Hall. apply andb_true_iff in Hall as [Hc Hall].
    rewrite append_cons. simpl. by rewrite Hc, IH.
Qed.

Lemma afterSlash_letter (a : ascii) (rest : string) :
  isLetter a = true -> afterSlash (String a rest) = String a rest.
Proof.
  destruct a as [[] [] [] [] [] [] [] []]; try reflexivity; discriminate.
Qed.

Lemma matchLocale_afterSlash (pathname : string) :
  matchLocale pathname
  = match afterSlash pathname with
    | String a (String b tail) =>
        if isLetter a && isLetter b
        then Some (String a (String b (takeWhile isLocaleChar tail)))
        else None
    | _ => None
    end.
Proof. reflexivity. Qed.

Lemma matchLocale_inv (pathname L : string) :
  matchLocale pathname = Some L ->
  exists a b run rest,
    afterSlash pathname = String a (String b (run ++ rest))
    /\ L = String a (String b run)
    /\ isLetter a = true /\ isLetter b = true
    /\ allChars isLocaleChar run = true
    /\ stopsAt isLocaleChar rest.
Proof.
  rewrite matchLocale_afterSlash.
  destruct (afterSlash pathname) as [|a [|b tail]]; try discriminate.
  destruct (isLetter a) eqn:Ha, (isLetter b) eqn:Hb; try discriminate.
  simpl. intros [= <-].
  destruct (takeWhile_split isLocaleChar tail) as (rest & Heq & Hall & Hstop).
  exists a, b, (takeWhile isLocaleChar tail), rest.
  by rewrite <- Heq.
Qed.

Lemma matchLocale_allChars (pathname L : string) :
  matchLocale pathname = Some L -> allChars isLocaleChar L = true.
Proof.
  intros (a & b & run & rest & _ & -> & Ha & Hb & Hall & _)%matchLocale_inv.
  simpl. unfold isLocaleChar at 1 2. by rewrite Ha, Hb, Hall.
Qed.

(** X11: The pattern, read as a relation: [L] is captured exactly when the path,
    after an optional leading slash, starts with [L], [L] is two letters
    followed by locale characters only, and what follows [L] in the path
    does not start with a locale character (the run is the longest one). *)
Theorem matchLocale_spec (pathname L : string) :
  matchLocale pathname = Some L
  <-> exists a b run rest,
        afterSlash pathname = String a (String b (run ++ rest))
        /\ L = String a (String b run)
        /\ isLetter a = true /\ isLetter b = true
        /\ allChars isLocaleChar run = true
        /\ stopsAt isLocaleChar rest.
Proof.
  split; [apply matchLocale_inv|].
  intros (a & b & run & rest & Hpath & -> & Ha & Hb & Hall & Hstop).
  rewrite matchLocale_afterSlash, Hpath, Ha, Hb. simpl.
  by rewrite takeWhile_app.
Qed.

(** X12: A captured locale is at least two characters long, made of locale
    characters only, and is itself a path that yields the same locale, with
    or without a leading slash. *)
Theorem matchLocale_fixed (pathname L : string) :
  matchLocale pathname = Some L ->
  2 <= String.length L
  /\ allChars isLocaleChar L = true
  /\ matchLocale L = Some L
  /\ matchLocale (String "/"%char L) = Some L.
Proof.
  intros (a & b & run & rest & _ & -> & Ha & Hb & Hall & _)%matchLocale_inv.
  pose proof (takeWhile_app isLocaleChar run "" Hall I) as Hrun.
  rewrite append_empty in Hrun.
  split; [simpl; lia|].
  split; [|split].
  - simpl. unfold isLocaleChar at 1 2. by rewrite Ha, Hb, Hall.
  - rewrite matchLocale_afterSlash, (afterSlash_letter _ _ Ha), Ha, Hb. simpl.
    by rewrite Hrun.
  - rewrite matchLocale_afterSlash.
    change (afterSlash (String "/"%char (String a (String b run))))
      with (String a (String b run)).
    cbv beta iota. rewrite Ha, Hb. simpl. by rewrite Hrun.
Qed.

Lemma matchLocale_fixed_witness :
  matchLocale "/pt_BR/extra" = Some "pt_BR"
  /\ 2 <= String.length "pt_BR"
  /\ allChars isLocaleChar "pt_BR" = true
  /\ matchLocale "pt_BR" = Some "pt_BR"
  /\ matchLocale "/pt_BR" = Some "pt_BR".
Proof.
  exact (conj eq_refl (matchLocale_fixed "/pt_BR/extra" "pt_BR" eq_refl)).
Defined.

(** * Further properties of the cache and the endpoint *)

Section EndpointShape.
Variables getJS getJSON getYML : Formatter.
Variable translationsHeaders : gmap string string.

Local Abbreviation entryAt now := (GetCacheEntry.Build now getYML getJSON getJS).

(** What a request does to the cache. *)
Lemma handler_cache_cases now (cache : Cache) url :
  fst (handler getJS getJSON getYML translationsHeaders now cache url) = cache
  \/ exists L,
       pathname url ≫= matchLocale = Some L
       /\ unsupportedType (Query.type (query url)) = false
       /\ cache !! L = None
       /\ inherited L = false
       /\ fst (handler getJS getJSON getYML translationsHeaders now cache url)
          = <[L := entryAt now]> cache.
Proof.
  rewrite handler_cache.
  destruct (unsupportedType _) eqn:Htype; [by left|].
  destruct (pathname url ≫= matchLocale) as [L|] eqn:Hpath; [|by left].
  assert (HL : L <> "").
  { destruct (pathname url) as [p|]; [|discriminate].
    by apply (matchLocale_nonempty p). }
  rewrite (truthy_Some _ HL). cbv beta iota delta [orb negb].
  destruct (cache !! L) as [e|] eqn:Hcache.
  - left. by rewrite (getCache_hit _ _ _ _ _ _ _ HL Hcache).
  - destruct (inherited L) eqn:Hproto.
    + left. by rewrite (getCache_inherited _ _ _ _ _ _ HL Hcache Hproto).
    + right. exists L. by rewrite (getCache_miss _ _ _ _ _ _ HL Hcache Hproto).
Qed.

(** The status the handler answers with, as a table. *)
Lemma handler_status now (cache : Cache) url :
  statusOf (snd (handler getJS getJSON getYML translationsHeaders now cache url))
  = if unsupportedType (Query.type (query url)) then Some 415%Z
    else
      match pathname url ≫= matchLocale with
      | None => None
      | Some L =>
          match cache !! L with
          | Some e =>
              if String.eqb (GetCacheEntry.updatedAt e) ""
              then Some 501%Z else Some 200%Z
          | None =>
              if inherited L then Some 501%Z
              else if String.eqb now "" then Some 501%Z else Some 200%Z
          end
      end.
Proof.
  destruct (unsupportedType _) eqn:Htype.
  { unfold handler. by rewrite Htype. }
  destruct (pathname url ≫= matchLocale) as [L|] eqn:Hpath.
  2: { unfold handler. by rewrite Htype, Hpath. }
  assert (HL : L <> "").
  { destruct (pathname url) as [p|]; [|discriminate].
    by apply (matchLocale_nonempty p). }
  assert (Hentry : forall e,
             snd (getCache getJS getJSON getYML now cache (Some L)) = Entry e ->
             statusOf (snd (handler getJS getJSON getYML translationsHeaders
                              now cache url))
             = if String.eqb (GetCacheEntry.updatedAt e) ""
               then Some 501%Z else Some 200%Z).
  { intros e Hread.
    destruct (handler_entry getJS getJSON getYML translationsHeaders
                now cache url L e Htype Hpath Hread) as [H501 H200].
    destruct (String.eqb_spec (GetCacheEntry.updatedAt e) "") as [He|He].
    - by rewrite (H501 He).
    - destruct (H200 He) as (r & -> & Hstatus & _). simpl. by rewrite Hstatus. }
  destruct (cache !! L) as [e|] eqn:Hcache.
  - apply Hentry. by rewrite (getCache_hit _ _ _ _ _ _ _ HL Hcache).
  - destruct (inherited L) eqn:Hproto.
    + rewrite (handler_inherited getJS getJSON getYML translationsHeaders
                 now cache url L L Htype Hpath); [done|].
      by rewrite (getCache_inherited _ _ _ _ _ _ HL Hcache Hproto).
    + rewrite (Hentry (entryAt now)); [done|].
      by rewrite (getCache_miss _ _ _ _ _ _ HL Hcache Hproto).
Qed.

End EndpointShape.

Section EndpointFurther.
Variables getJS getJSON getYML : Formatter.
Variable translationsHeaders : gmap string string.

Local Abbreviation entryAt now := (GetCacheEntry.Build now getYML getJSON getJS).

(** X13: Reading the same locale again, at any later time, returns what the first
    read returned and leaves the cache as the first read left it: a
    timestamp is never refreshed by a read. *)
Theorem getCache_idempotent (now now' : string) (cache : Cache)
    (locale : option string) :
  getCache getJS getJSON getYML now'
    (fst (getCache getJS getJSON getYML now cache locale)) locale
  = getCache getJS getJSON getYML now cache locale.
Proof.
  unfold getCache. destruct (negb (truthy locale)); [done|].
  destruct (cache !! propertyKey locale) as [e|] eqn:Hcache; simpl.
  - by rewrite Hcache.
  - destruct (inherited (propertyKey locale)) eqn:Hproto; simpl.
    + by rewrite Hcache.
    + by rewrite lookup_insert_eq.
Qed.

(** X14: A request never changes or removes an entry of the cache, and the only
    entry it can add is the one for the locale its path yields, stamped with
    the time of the request. *)
Theorem handler_cache_effect (now : string) (cache : Cache) (url : ParsedUrl) :
  let cache' :=
    fst (handler getJS getJSON getYML translationsHeaders now cache url) in
  (forall k e, cache !! k = Some e -> cache' !! k = Some e)
  /\ (forall k,
        cache !! k = None -> cache' !! k <> None ->
        pathname url ≫= matchLocale = Some k
        /\ allChars isLocaleChar k = true
        /\ cache' !! k = Some (entryAt now)).
Proof.
  cbv zeta. split.
  - intros k e Hk. by apply handler_keeps.
  - intros k Hk Hk'.
    destruct (handler_cache_cases getJS getJSON getYML translationsHeaders
                now cache url) as [Heq|(L & Hpath & _ & _ & _ & Heq)];
      rewrite Heq in *; [done|].
    destruct (decide (L = k)) as [->|Hne].
    + split; [done|]. split; [|apply lookup_insert_eq].
      destruct (pathname url) as [p|]; [|discriminate].
      by apply (matchLocale_allChars p).
    + by rewrite lookup_insert_ne in Hk'.
Qed.
End EndpointFurther.

Section EndpointInvariants.
Variables getJS getJSON getYML : Formatter.
Variable translationsHeaders : gmap string string.

Local Abbreviation entryAt now := (GetCacheEntry.Build now getYML getJSON getJS).

Lemma getCache_cases now (cache : Cache) locale :
  fst (getCache getJS getJSON getYML now cache locale) = cache
  \/ (cache !! propertyKey locale = None
      /\ fst (getCache getJS getJSON getYML now cache locale)
         = <[propertyKey locale := entryAt now]> cache).
Proof.
  unfold getCache. destruct (negb (truthy locale)); [by left|].
  destruct (cache !! propertyKey locale) eqn:Hcache; [by left|].
  destruct (inherited (propertyKey locale)); [by left | by right].
Qed.

Lemma insert_allStamped (cache : Cache) L now :
  allStamped cache -> now <> "" -> allStamped (<[L := entryAt now]> cache).
Proof.
  intros Hcache Hnow k e. destruct (decide (L = k)) as [->|Hne].
  - rewrite lookup_insert_eq. by intros [= <-].
  - rewrite lookup_insert_ne by done. apply Hcache.
Qed.

Lemma cacheCall_allStamped (cache : Cache) (c : CacheCall) :
  allStamped cache -> timely c ->
  allStamped (cacheCall getJS getJSON getYML translationsHeaders cache c).
Proof.
  intros Hcache Hc. destruct c as [now locale|now url|L]; simpl in *.
  - destruct (getCache_cases now cache locale) as [->|[_ ->]]; [done|].
    by apply insert_allStamped.
  - destruct (handler_cache_cases getJS getJSON getYML translationsHeaders
                now cache url) as [->|(L & _ & _ & _ & _ & ->)]; [done|].
    by apply insert_allStamped.
  - intros k e. unfold invalidate. destruct (decide (L = k)) as [->|Hne].
    + by rewrite lookup_delete_eq.
    + rewrite lookup_delete_ne by done. apply Hcache.
Qed.

Lemma cacheCalls_allStamped (cs : list CacheCall) (cache : Cache) :
  allStamped cache -> Forall timely cs ->
  allStamped (cacheCalls getJS getJSON getYML translationsHeaders cache cs).
Proof.
  intros Hcache Hcs. revert cache Hcache.
  induction Hcs as [|c cs Hc Hcs IH]; intros cache Hcache; [done|].
  simpl. apply IH. by apply cacheCall_allStamped.
Qed.

(** X15: A cache whose entries are all stamped, and that is then only
    changed by reads, served requests and reloads with a clock that never
    prints an empty string, keeps stamped entries only.  The handler then
    answers 501 exactly for the requests with a supported type whose path
    yields the name of a member inherited from [Object.prototype] that has
    no entry in the cache; every other request is passed on or answered 200
    or 415. *)
Theorem handler_501_stamped (cs : list CacheCall) (cache : Cache)
    (now : string) (url : ParsedUrl) :
  allStamped cache ->
  Forall timely cs ->
  now <> "" ->
  let cache' := cacheCalls getJS getJSON getYML translationsHeaders cache cs in
  let status :=
    statusOf (snd (handler getJS getJSON getYML translationsHeaders now cache'
                     url)) in
  allStamped cache'
  /\ (status = Some 501%Z
      <-> unsupportedType (Query.type (query url)) = false
          /\ exists L,
               pathname url ≫= matchLocale = Some L
               /\ cache' !! L = None
               /\ inherited L = true)
  /\ (status = None \/ status = Some 200%Z \/ status = Some 415%Z
      \/ status = Some 501%Z).
Proof.
  intros Hcache Hcs Hnow. cbv zeta.
  pose proof (cacheCalls_allStamped cs cache Hcache Hcs) as Hstamped.
  split; [done|]. rewrite handler_status.
  set (cache' := cacheCalls getJS getJSON getYML translationsHeaders cache cs)
    in *.
  apply String.eqb_neq in Hnow.
  destruct (unsupportedType _).
  { split; [|auto]. split; [discriminate | by intros [? _]]. }
  destruct (pathname url ≫= matchLocale) as [L|].
  2: { split; [|auto]. split; [discriminate|].
       by intros (_ & L & ? & _). }
  destruct (cache' !! L) as [e|] eqn:HL.
  - pose proof (Hstamped L e HL) as Hstamp.
    apply String.eqb_neq in Hstamp. rewrite Hstamp.
    split; [|auto]. split; [discriminate|].
    intros (_ & L' & [= <-] & Habs & _). congruence.
  - destruct (inherited L) eqn:Hproto.
    + split; [|auto 6]. split; [|done].
      intros _. split; [done|]. by exists L.
    + rewrite Hnow. split; [|auto]. split; [discriminate|].
      intros (_ & L' & [= <-] & _ & Habs). congruence.
Qed.

End EndpointInvariants.

Section EndpointAnswers.
Variables getJS getJSON getYML : Formatter.
Variable translationsHeaders : gmap string string.

Local Abbreviation entryAt now := (GetCacheEntry.Build now getYML getJSON getJS).

(** X17: A download ([attachment] set) served from the entry [e], with no
    configured [Content-Type]: the formatter called, the content type and the
    extension of the file name always agree, and an absent or empty [type]
    is served as JavaScript with the extension js. *)
Theorem handler_format (now : string) (cache : Cache) (url : ParsedUrl)
    (L : string) (e : GetCacheEntry.t) :
  unsupportedType (Query.type (query url)) = false ->
  pathname url ≫= matchLocale = Some L ->
  snd (getCache getJS getJSON getYML now cache (Some L)) = Entry e ->
  GetCacheEntry.updatedAt e <> "" ->
  queryTruthy (Query.attachment (query url)) = true ->
  translationsHeaders !! "Content-Type" = None ->
  exists r ext contentType content,
    snd (handler getJS getJSON getYML translationsHeaders now cache url)
    = Responded r
    /\ statusCode r = 200%Z
    /\ body r = Some content
    /\ headers r !! "Content-Type" = Some contentType
    /\ headers r !! "Content-Disposition"
       = Some ("attachment; filename=" ++ dquote
                 ++ (L ++ ".i18n." ++ ext) ++ dquote)
    /\ ((Query.type (query url) = Some (QString "json") /\ ext = "json"
         /\ contentType = "application/json; charset=utf-8"
         /\ content = GetCacheEntry.getJSON e L
                        (orUndefined (Query.namespace (query url)))
                        (orFalse (Query.diff (query url))))
        \/ (Query.type (query url) = Some (QString "yml") /\ ext = "yml"
            /\ contentType = "text/yaml; charset=utf-8"
            /\ content = GetCacheEntry.getYML e L
                           (orUndefined (Query.namespace (query url)))
                           (orFalse (Query.diff (query url))))
        \/ ((Query.type (query url) = None
             \/ Query.type (query url) = Some (QString "")
             \/ Query.type (query url) = Some (QString "js"))
            /\ ext = "js"
            /\ contentType = "application/javascript; charset=utf-8"
            /\ content = GetCacheEntry.getJS e L
                           (orUndefined (Query.namespace (query url)))
                           (orFalse (Query.preload (query url))))).
Proof.
  intros Htype Hpath Hread Hstamp Hatt Hct.
  destruct (handler_ok getJS getJSON getYML translationsHeaders now cache url
              L e Htype Hpath Hread Hstamp)
    as (ext & contentType & content & Hcases & Hanswer).
  rewrite Hatt in Hanswer.
  eexists; exists ext, contentType, content.
  split; [exact Hanswer|]. simpl. repeat (split; [done|]).
  split; [|split; [|done]].
  - rewrite lookup_union_r; [apply lookup_singleton_eq|].
    by rewrite !lookup_insert_ne by discriminate.
  - apply lookup_union_Some_l, lookup_insert_eq.
Qed.

(** X18: Which headers win in an answer served from the entry [e]:
    [Last-Modified] is always the entry's timestamp, a configured
    [Content-Type] replaces the negotiated one, a configured
    [Content-Disposition] survives unless the request asks for a download,
    and every other configured header is passed through. *)
Theorem handler_headers (now : string) (cache : Cache) (url : ParsedUrl)
    (L : string) (e : GetCacheEntry.t) :
  unsupportedType (Query.type (query url)) = false ->
  pathname url ≫= matchLocale = Some L ->
  snd (getCache getJS getJSON getYML now cache (Some L)) = Entry e ->
  GetCacheEntry.updatedAt e <> "" ->
  exists r,
    snd (handler getJS getJSON getYML translationsHeaders now cache url)
    = Responded r
    /\ headers r !! "Last-Modified" = Some (GetCacheEntry.updatedAt e)
    /\ (forall v,
          translationsHeaders !! "Content-Type" = Some v ->
          headers r !! "Content-Type" = Some v)
    /\ (queryTruthy (Query.attachment (query url)) = false ->
        headers r !! "Content-Disposition"
        = translationsHeaders !! "Content-Disposition")
    /\ (forall h,
          h <> "Last-Modified" -> h <> "Content-Type" ->
          h <> "Content-Disposition" ->
          headers r !! h = translationsHeaders !! h).
Proof.
  intros Htype Hpath Hread Hstamp.
  destruct (handler_ok getJS getJSON getYML translationsHeaders now cache url
              L e Htype Hpath Hread Hstamp)
    as (ext & contentType & content & _ & Hanswer).
  eexists. split; [exact Hanswer|]. simpl.
  set (base := <["Last-Modified" := GetCacheEntry.updatedAt e]>
                 translationsHeaders).
  assert (Hbase : base !! "Last-Modified" = Some (GetCacheEntry.updatedAt e))
    by apply lookup_insert_eq.
  split; [|split; [|split]].
  - apply lookup_union_Some_l.
    destruct (queryTruthy _); [|done].
    by rewrite lookup_insert_ne by discriminate.
  - intros v Hv. apply lookup_union_Some_l.
    destruct (queryTruthy _); subst base;
      by rewrite !lookup_insert_ne by discriminate.
  - intros ->. rewrite lookup_union_l by by rewrite lookup_singleton_ne.
    subst base. by rewrite lookup_insert_ne by discriminate.
  - intros h Hlm Hct Hcd.
    rewrite lookup_union_l by by rewrite lookup_singleton_ne.
    destruct (queryTruthy _); subst base; by rewrite !lookup_insert_ne.
Qed.

(** X19: the [Last-Modified] of a locale is the time of the request that first
    read it.  For requests with a supported type whose path yields a locale
    that is not the name of a member inherited from [Object.prototype] and
    has no entry: the first is answered with its own time, and a later one,
    after any reads, requests and reloads of other locales, is still
    answered with that first time, not with its own. *)
Theorem handler_last_modified_stable (now1 now2 : string) (cache : Cache)
    (url1 url2 : ParsedUrl) (L : string) (between : list CacheCall) :
  unsupportedType (Query.type (query url1)) = false ->
  unsupportedType (Query.type (query url2)) = false ->
  pathname url1 ≫= matchLocale = Some L ->
  pathname url2 ≫= matchLocale = Some L ->
  cache !! L = None ->
  inherited L = false ->
  now1 <> "" ->
  Forall (fun c => c <> Reloaded L) between ->
  let first :=
    handler getJS getJSON getYML translationsHeaders now1 cache url1 in
  let second :=
    handler getJS getJSON getYML translationsHeaders now2
      (cacheCalls getJS getJSON getYML translationsHeaders (fst first) between)
      url2 in
  exists r1 r2,
    snd first = Responded r1 /\ headers r1 !! "Last-Modified" = Some now1
    /\ snd second = Responded r2 /\ headers r2 !! "Last-Modified" = Some now1.
Proof.
  intros Htype1 Htype2 Hpath1 Hpath2 Hnone Hown Hnow Hbetween. cbv zeta.
  assert (HL : L <> "").
  { destruct (pathname url1) as [p|]; [|discriminate].
    by apply (matchLocale_nonempty p). }
  pose proof (getCache_miss getJS getJSON getYML now1 cache L HL Hnone Hown)
    as Hget.
  destruct (handler_entry getJS getJSON getYML translationsHeaders
              now1 cache url1 L (entryAt now1) Htype1 Hpath1) as [_ Hfirst].
  { by rewrite Hget. }
  destruct (Hfirst Hnow) as (r1 & Hr1 & _ & Hlm1 & _).
  assert (Hkept :
            cacheCalls getJS getJSON getYML translationsHeaders
              (fst (handler getJS getJSON getYML translationsHeaders now1
                      cache url1)) between !! L
            = Some (entryAt now1)).
  { apply cacheCalls_keep; [|done].
    rewrite handler_cache, Htype1, Hpath1, (truthy_Some _ HL), Hget. simpl.
    apply lookup_insert_eq. }
  destruct (handler_entry getJS getJSON getYML translationsHeaders now2
              (cacheCalls getJS getJSON getYML translationsHeaders
                 (fst (handler getJS getJSON getYML translationsHeaders now1
                         cache url1)) between)
              url2 L (entryAt now1) Htype2 Hpath2) as [_ Hsecond].
  { by rewrite (getCache_hit _ _ _ _ _ _ _ HL Hkept). }
  destruct (Hsecond Hnow) as (r2 & Hr2 & _ & Hlm2 & _).
  by exists r1, r2.
Qed.
End EndpointAnswers.

(** * Further properties of the remote loader *)

Section LoaderFurther.
Variable normalize : string -> option string.
Variable resolve : string -> string -> string.
Variables hostUrl pathOnHostOption defaultLocale currentLocale : string.
Variable fetchJson : string -> Reply.
Variable T : Type.
Variable parseContent : string -> option T.

Local Abbreviation loadWith :=
  (loadLocale normalize resolve hostUrl pathOnHostOption defaultLocale
     currentLocale fetchJson T parseContent).

(** The URL requested for a normalized locale. *)
Local Abbreviation urlFor options normalizedLocale :=
  (resolve (default hostUrl (LoadOptions.host options))
     (default pathOnHostOption (LoadOptions.pathOnHost options)
        ++ normalizedLocale ++ "?type=json")).

(** The [queryParams] object as the loader leaves it for a recognised
    locale. *)
Local Abbreviation paramsAfter nowMs options :=
  (if default false (LoadOptions.fresh options)
   then <["ts" := PNumber nowMs]>
          (<["type" := PString "json"]>
             (default ∅ (LoadOptions.queryParams options)))
   else <["type" := PString "json"]>
          (default ∅ (LoadOptions.queryParams options))).

Lemma loadLocale_recognised nowMs (cache : Cache) locale options n :
  normalize locale = Some n -> n <> "" ->
  loadWith nowMs cache locale options
  = match fetchJson (urlFor options n) with
    | Rejected =>
        (cache, paramsAfter nowMs options,
         [Fetched (urlFor options n); ErrorPrinted])
    | Json content =>
        if truthy content
        then
          match parseContent (propertyKey content) with
          | Some translations =>
              (invalidate cache n, paramsAfter nowMs options,
               Fetched (urlFor options n) :: TranslationsAdded n translations
                 :: (if negb (default false (LoadOptions.silent options))
                        && (String.prefix n currentLocale
                            || String.prefix n defaultLocale)
                     then [ChangeEmitted]
                     else []))
          | None =>
              (cache, paramsAfter nowMs options,
               [Fetched (urlFor options n); ErrorPrinted])
          end
        else (cache, paramsAfter nowMs options,
              [Fetched (urlFor options n); MissingContentPrinted])
    end.
Proof.
  intros Hnorm Hne. unfold loadLocale.
  rewrite Hnorm, (truthy_Some _ Hne). simpl.
  by rewrite queryParams_type.
Qed.

Lemma loadLocale_unrecognised_eq nowMs (cache : Cache) locale options :
  truthy (normalize locale) = false ->
  loadWith nowMs cache locale options
  = (cache, default ∅ (LoadOptions.queryParams options),
     [Logged ("Unrecognized locale " ++ dquote ++ locale ++ dquote)]).
Proof. intros Hnorm. unfold loadLocale. by rewrite Hnorm. Qed.

(** X20: A locale the normaliser does not recognise (or normalises to the empty
    string) is only logged: nothing is requested, no translations are added,
    no change is announced, and the cache and [queryParams] stay as they
    were. *)
Theorem loadLocale_unrecognised (nowMs : Z) (cache : Cache) (locale : string)
    (options : LoadOptions.t) :
  truthy (normalize locale) = false ->
  let result := loadWith nowMs cache locale options in
  fst (fst result) = cache
  /\ snd (fst result) = default ∅ (LoadOptions.queryParams options)
  /\ snd result
     = [Logged ("Unrecognized locale " ++ dquote ++ locale ++ dquote)].
Proof.
  intros Hnorm. cbv zeta. by rewrite (loadLocale_unrecognised_eq _ _ _ _ Hnorm).
Qed.

(** X21: What a load does to the cache: either nothing, and then no translations
    were added, or translations were added for the normalized locale, at
    most one change was announced after that, and exactly the entry of the
    normalized locale was dropped.  Entries of other locales are never
    touched. *)
Theorem loadLocale_cache_effect (nowMs : Z) (cache : Cache) (locale : string)
    (options : LoadOptions.t) :
  let result := loadWith nowMs cache locale options in
  let cache' := fst (fst result) in
  ((cache' = cache
    /\ forall n translations, TranslationsAdded n translations ∉ snd result)
   \/ exists n translations url announced,
        normalize locale = Some n
        /\ cache' = invalidate cache n
        /\ cache' !! n = None
        /\ snd result
           = Fetched url :: TranslationsAdded n translations :: announced
        /\ (announced = [] \/ announced = [ChangeEmitted]))
  /\ forall k, normalize locale <> Some k -> cache' !! k = cache !! k.
Proof.
  cbv zeta.
  destruct (truthy (normalize locale)) eqn:Htruthy.
  2: { rewrite (loadLocale_unrecognised_eq _ _ _ _ Htruthy). simpl.
       split; [|done]. left. split; [done|].
       intros n t Hin. apply list_elem_of_singleton in Hin. discriminate. }
  destruct (normalize locale) as [n|] eqn:Hnorm; [|discriminate].
  apply truthy_Some_inv in Htruthy.
  rewrite (loadLocale_recognised _ _ _ _ _ Hnorm Htruthy).
  assert (Hno : forall (effect : Effect T) u n' t,
             effect <> TranslationsAdded n' t ->
             TranslationsAdded n' t ∉ [Fetched u; effect]).
  { intros effect u n' t Hne Hin.
    apply elem_of_cons in Hin as [Hin|Hin]; [discriminate|].
    apply list_elem_of_singleton in Hin. congruence. }
  destruct (fetchJson _) as [|content]; simpl.
  { split; [left; split; [done|] | done]. intros; by apply Hno. }
  destruct (truthy content); simpl.
  2: { split; [left; split; [done|] | done]. intros; by apply Hno. }
  destruct (parseContent _) as [t|]; simpl.
  2: { split; [left; split; [done|] | done]. intros; by apply Hno. }
  split.
  - right. eexists n, t, _, _. split; [done|]. split; [done|].
    split; [apply lookup_delete_eq|]. split; [reflexivity|].
    destruct (_ && _); auto.
  - intros k Hk. unfold invalidate. apply lookup_delete_ne. congruence.
Qed.

(** X22: A change is announced exactly when the locale is recognised, the remote
    answered with non-empty content that parses, the load is not silent, and
    the normalized locale is a prefix of the current or of the default
    locale. *)
Theorem loadLocale_change_emitted (nowMs : Z) (cache : Cache) (locale : string)
    (options : LoadOptions.t) :
  ChangeEmitted ∈ snd (loadWith nowMs cache locale options)
  <-> exists n content,
        normalize locale = Some n /\ n <> ""
        /\ fetchJson (urlFor options n) = Json (Some content)
        /\ content <> ""
        /\ parseContent content <> None
        /\ default false (LoadOptions.silent options) = false
        /\ (String.prefix n currentLocale = true
            \/ String.prefix n defaultLocale = true).
Proof.
  assert (Hnot1 : forall e : Effect T,
             e <> ChangeEmitted -> ChangeEmitted ∉ [e]).
  { intros e He Hin. apply list_elem_of_singleton in Hin. congruence. }
  assert (Hnot2 : forall (u : string) (e : Effect T),
             e <> ChangeEmitted -> ChangeEmitted ∉ [Fetched u; e]).
  { intros u e He Hin. apply elem_of_cons in Hin as [Hin|Hin];
      [discriminate|]. by apply (Hnot1 e). }
  split.
  - intros Hin.
    destruct (truthy (normalize locale)) eqn:Htruthy.
    2: { rewrite (loadLocale_unrecognised_eq _ _ _ _ Htruthy) in Hin.
         by apply Hnot1 in Hin. }
    destruct (normalize locale) as [n|] eqn:Hnorm; [|discriminate].
    apply truthy_Some_inv in Htruthy.
    rewrite (loadLocale_recognised _ _ _ _ _ Hnorm Htruthy) in Hin.
    destruct (fetchJson _) as [|[content|]] eqn:Hfetch; simpl in Hin;
      try by apply Hnot2 in Hin.
    destruct (String.eqb_spec content "") as [->|Hcontent]; simpl in Hin;
      [by apply Hnot2 in Hin|].
    destruct (parseContent content) as [t|] eqn:Hparse; simpl in Hin;
      [|by apply Hnot2 in Hin].
    exists n, content. repeat (split; [done|]). split; [congruence|].
    destruct (default false (LoadOptions.silent options)); simpl in Hin.
    { apply elem_of_cons in Hin as [Hin|Hin]; [discriminate|].
      by apply Hnot1 in Hin. }
    split; [done|].
    destruct (String.prefix n currentLocale); [by left|].
    destruct (String.prefix n defaultLocale); [by right|]. simpl in Hin.
    apply elem_of_cons in Hin as [Hin|Hin]; [discriminate|].
    apply elem_of_cons in Hin as [Hin|Hin]; [discriminate|].
    by apply elem_of_nil in Hin.
  - intros (n & content & Hnorm & Hne & Hfetch & Hcontent & Hparse & Hsilent
            & Hprefix).
    rewrite (loadLocale_recognised _ _ _ _ _ Hnorm Hne), Hfetch.
    rewrite (truthy_Some _ Hcontent). simpl.
    destruct (parseContent content) as [t|]; [|done]. simpl.
    rewrite Hsilent. simpl.
    assert (Hor : String.prefix n currentLocale
                  || String.prefix n defaultLocale = true).
    { destruct Hprefix as [->| ->]; [done|]. apply orb_true_r. }
    rewrite Hor. rewrite !elem_of_cons. auto.
Qed.
End LoaderFurther.

(** * The loader and the endpoint together *)

Section ReloadThenRequest.
Variables getJS getJSON getYML : Formatter.
Variable translationsHeaders : gmap string string.
Variable normalize : string -> option string.
Variable resolve : string -> string -> string.
Variables hostUrl pathOnHostOption defaultLocale currentLocale : string.
Variable fetchJson : string -> Reply.
Variable T : Type.
Variable parseContent : string -> option T.

End ReloadThenRequest.

(** * The further properties on sample inputs *)

Lemma handler_501_stamped_witness :
  let cs := [Served sampleNow {| pathname := Some "/en"; query := noQuery |};
             Got sampleNow (Some "fr"); Reloaded "en"] in
  let cache' :=
    cacheCalls (sampleFormatter "getJS") (sampleFormatter "getJSON")
      (sampleFormatter "getYML") ∅ ∅ cs in
  let status url :=
    statusOf (snd (handler (sampleFormatter "getJS")
                     (sampleFormatter "getJSON") (sampleFormatter "getYML") ∅
                     sampleNow cache' url)) in
  allStamped cache'
  /\ status {| pathname := Some "/hasOwnProperty"; query := noQuery |}
     = Some 501%Z.
Proof.
  intros cs.
  assert (Hempty : allStamped ∅) by (intros k e; by rewrite lookup_empty).
  assert (Hcs : Forall timely cs) by (repeat constructor; discriminate).
  assert (Hnow : sampleNow <> "") by discriminate.
  destruct (handler_501_stamped (sampleFormatter "getJS")
              (sampleFormatter "getJSON") (sampleFormatter "getYML") ∅ cs ∅
              sampleNow
              {| pathname := Some "/hasOwnProperty"; query := noQuery |}
              Hempty Hcs Hnow) as (Hstamped & H501 & _).
  refine (conj Hstamped (proj2 H501 (conj eq_refl _))).
  exists "hasOwnProperty".
  split; [reflexivity|]. split; [vm_compute; reflexivity | reflexivity].
Defined.


Lemma handler_format_witness :
  let url :=
    {| pathname := Some "/en";
       query := Query.Build (Some (QString "1")) None None None
                  (Some (QString "yml")) |} in
  exists r,
    snd (handler (sampleFormatter "getJS") (sampleFormatter "getJSON")
           (sampleFormatter "getYML") ∅ sampleNow ∅ url)
    = Responded r
    /\ body r = Some "getYML:en"
    /\ headers r !! "Content-Type" = Some "text/yaml; charset=utf-8"
    /\ headers r !! "Content-Disposition"
       = Some ("attachment; filename=" ++ dquote ++ "en.i18n.yml" ++ dquote).
Proof.
  intros url.
  assert (Hnow : sampleNow <> "") by discriminate.
  assert (Hread :
            snd (getCache (sampleFormatter "getJS") (sampleFormatter "getJSON")
                   (sampleFormatter "getYML") sampleNow ∅ (Some "en"))
            = Entry (GetCacheEntry.Build sampleNow (sampleFormatter "getYML")
                       (sampleFormatter "getJSON") (sampleFormatter "getJS")))
    by reflexivity.
  destruct (handler_format (sampleFormatter "getJS")
              (sampleFormatter "getJSON") (sampleFormatter "getYML") ∅
              sampleNow ∅ url "en" _ eq_refl eq_refl Hread Hnow eq_refl
              (lookup_empty _))
    as (r & ext & contentType & content & Hr & _ & Hbody & Hct & Hcd & Hcases).
  exists r.
  destruct Hcases as [(Hty & _)|[(_ & -> & -> & ->)|([Hty|[Hty|Hty]] & _)]];
    try discriminate Hty.
  exact (conj Hr (conj Hbody (conj Hct Hcd))).
Defined.

Lemma handler_headers_witness :
  let url := {| pathname := Some "/en"; query := noQuery |} in
  let configured : gmap string string :=
    {["Content-Type" := "text/plain"]} in
  exists r,
    snd (handler (sampleFormatter "getJS") (sampleFormatter "getJSON")
           (sampleFormatter "getYML") configured sampleNow ∅ url)
    = Responded r
    /\ headers r !! "Last-Modified" = Some sampleNow
    /\ headers r !! "Content-Type" = Some "text/plain".
Proof.
  intros url configured.
  assert (Hnow : sampleNow <> "") by discriminate.
  assert (Hread :
            snd (getCache (sampleFormatter "getJS") (sampleFormatter "getJSON")
                   (sampleFormatter "getYML") sampleNow ∅ (Some "en"))
            = Entry (GetCacheEntry.Build sampleNow (sampleFormatter "getYML")
                       (sampleFormatter "getJSON") (sampleFormatter "getJS")))
    by reflexivity.
  destruct (handler_headers (sampleFormatter "getJS")
              (sampleFormatter "getJSON") (sampleFormatter "getYML") configured
              sampleNow ∅ url "en" _ eq_refl eq_refl Hread Hnow)
    as (r & Hr & Hlm & Hct & _).
  exists r.
  exact (conj Hr (conj Hlm (Hct "text/plain" (lookup_singleton_eq _ _)))).
Defined.

Lemma handler_last_modified_stable_witness :
  let url := {| pathname := Some "/en"; query := noQuery |} in
  let first :=
    handler (sampleFormatter "getJS") (sampleFormatter "getJSON")
      (sampleFormatter "getYML") ∅ "t1" ∅ url in
  let second :=
    handler (sampleFormatter "getJS") (sampleFormatter "getJSON")
      (sampleFormatter "getYML") ∅ "t2"
      (cacheCalls (sampleFormatter "getJS") (sampleFormatter "getJSON")
         (sampleFormatter "getYML") ∅ (fst first) [Reloaded "fr"]) url in
  exists r1 r2,
    snd first = Responded r1 /\ headers r1 !! "Last-Modified" = Some "t1"
    /\ snd second = Responded r2 /\ headers r2 !! "Last-Modified" = Some "t1".
Proof.
  intros url.
  assert (Hnow : "t1" <> "") by discriminate.
  assert (Hbetween : Forall (fun c => c <> Reloaded "en") [Reloaded "fr"])
    by (repeat constructor; discriminate).
  exact (handler_last_modified_stable (sampleFormatter "getJS")
           (sampleFormatter "getJSON") (sampleFormatter "getYML") ∅
           "t1" "t2" ∅ url url "en" [Reloaded "fr"]
           eq_refl eq_refl eq_refl eq_refl eq_refl eq_refl Hnow Hbetween).
Defined.

Lemma loadLocale_unrecognised_witness :
  let result :=
    loadLocale sampleNormalize sampleResolve "http://localhost:3000/"
      "universe/locale/" "en" "en" sampleFetchJson string Some 0%Z ∅
      "xx-YY" (LoadOptions.Build (Some true) None None None None) in
  truthy (sampleNormalize "xx-YY") = false
  /\ fst (fst result) = ∅
  /\ snd (fst result) = ∅
  /\ snd result = [Logged ("Unrecognized locale " ++ dquote ++ "xx-YY" ++ dquote)].
Proof.
  exact (conj eq_refl
           (loadLocale_unrecognised sampleNormalize sampleResolve
              "http://localhost:3000/" "universe/locale/" "en" "en"
              sampleFetchJson string Some 0%Z ∅ "xx-YY"
              (LoadOptions.Build (Some true) None None None None) eq_refl)).
Defined.


(** A request for a name every object inherits, on an empty cache: the read
    returns the inherited member, nothing is added, and the answer is 501. *)
Example handler_inherited_name_sample :
  handler (sampleFormatter "getJS") (sampleFormatter "getJSON")
    (sampleFormatter "getYML") ∅ sampleNow ∅
    {| pathname := Some "/constructor"; query := noQuery |}
  = (∅, Responded {| statusCode := 501; headers := ∅; body := None |}).
Proof. reflexivity. Qed.
